(** * Order blocks and break-of-structure lines: a model of [project.py]

    The class [OrderBlockVisualizer] of [project.py] is embedded as pure
    functions over an explicit object state.  Prices only ever flow through
    comparisons, [min], [max] and copies, so a price is an integer number of
    ticks ([Z]); the one special float the program meets, the [NaN] that
    pandas puts where a rolling window is not yet full, is [None] in an
    [option Z].  A Python exception ([IndexError], [ValueError]) is [None]
    in the option monad. *)

From stdpp Require Import base numbers strings option list.

Local Open Scope Z_scope.

(** ** Data *)

(** One row of the data frame [self.data]; the fields are its columns, the
    time stamp is the frame's index. *)
Record Candle := mkCandle {
  timestamp : Z;
  Open : Z;
  High : Z;
  Low : Z;
  Close : Z
}.

(** The dictionary built by [add_order_block]; the fields are its keys. *)
Record Box := mkBox {
  b_left : Z;
  b_top : Z;
  b_bottom : Z;
  b_right : Z;
  b_color : string
}.

#[global] Instance Box_eq_dec : EqDecision Box.
Proof. solve_decision. Defined.

(** The attributes of the object that the scan reads and writes. *)
Record State := mkState {
  short_boxes : list Box;
  long_boxes : list Box;
  bos_lines : list Box;
  lastDownIndex : Z;
  lastDown : Z;
  lastLow : Z;
  lastUpIndex : Z;
  lastUp : Z;
  lastUpLow : Z;
  lastUpOpen : Z;
  lastHigh : Z;
  lastLongIndex : Z;
  lastShortIndex : Z
}.

(** [__init__] (the three lists) followed by [_init_variables]. *)
Definition _init_variables : State :=
  {| short_boxes := []; long_boxes := []; bos_lines := [];
     lastDownIndex := 0; lastDown := 0; lastLow := 0;
     lastUpIndex := 0; lastUp := 0; lastUpLow := 0; lastUpOpen := 0;
     lastHigh := 0; lastLongIndex := 0; lastShortIndex := 0 |}.

(** ** The pandas operations the program calls *)

(** [x < y] on floats where [y] may be [NaN]: every comparison with [NaN]
    is false. *)
Definition nan_ltb (x : Z) (y : option Z) : bool :=
  match y with
  | Some v => bool_decide (x < v)
  | None => false
  end.

Definition agg_min (xs : list Z) : option Z :=
  match xs with
  | [] => None
  | x :: r => Some (foldl Z.min x r)
  end.

Definition agg_max (xs : list Z) : option Z :=
  match xs with
  | [] => None
  | x :: r => Some (foldl Z.max x r)
  end.

(** [xs.rolling(window=w).agg()]: position [i] aggregates the [w] entries
    that end at [i], and is [NaN] while fewer than [w] entries exist
    ([min_periods] defaults to the window).  The program is only run with
    a positive window; an empty window aggregates to [NaN] here. *)
Definition rolling (agg : list Z → option Z) (w : nat) (xs : list Z)
  : list (option Z) :=
  imap (λ i _, if decide (i + 1 < w)%nat then None
               else agg (take w (drop (i + 1 - w) xs))) xs.

(** [ys.shift(1)]: every entry moves one position later, the first becomes
    [NaN], the last is dropped. *)
Definition shift1 (ys : list (option Z)) : list (option Z) :=
  take (length ys) (None :: ys).

(** ** Structure extractor *)

(** The loop body of [structureLowIndexPointer]. *)
Definition pointer_step (data : list Candle)
    (acc : list (option Z) * list Z) (i : nat)
  : option (list (option Z) * list Z) :=
  lo ← Low <$> data !! i;
  mv ← acc.1 !! i;
  if nan_ltb lo mv
  then Some (<[i := Some lo]> acc.1, <[i := Z.of_nat i]> acc.2)
  else Some acc.

(** A [for] loop over a range whose body may raise. *)
Fixpoint for_each {S : Type} (body : S → nat → option S)
    (range : list nat) (s : S) : option S :=
  match range with
  | [] => Some s
  | i :: rest => s' ← body s i; for_each body rest s'
  end.

Definition structureLowIndexPointer (data : list Candle) (range_len : nat)
  : option (list Z) :=
  let minValue := shift1 (rolling agg_max range_len (High <$> data)) in
  let minIndex := Z.of_nat <$> seq 0 (length data) in
  snd <$> for_each (pointer_step data) (seq 1 (range_len - 1))
            (minValue, minIndex).

(** The series assigned to [self.structureLow]. *)
Definition structureLow_series (data : list Candle) (range_len : nat)
  : list (option Z) :=
  shift1 (rolling agg_min range_len (Low <$> data)).

(** [calculate_structure_low]: the pair ([self.structureLow],
    [self.structureLowIndex]). *)
Definition calculate_structure_low (data : list Candle) (range_len : nat)
  : option (list (option Z) * list Z) :=
  let structureLow := structureLow_series data range_len in
  structureLowIndex ← structureLowIndexPointer data range_len;
  Some (structureLow, structureLowIndex).

(** ** Order-block engine *)

Definition add_order_block (data : list Candle)
    (index top bottom : Z) (color : string) : Box :=
  {| b_left := index; b_top := top; b_bottom := bottom;
     b_right := Z.of_nat (length data) - 1; b_color := color |}.

(** Attribute assignments. *)
Definition set_short_boxes (l : list Box) (st : State) : State :=
  mkState l (long_boxes st) (bos_lines st) (lastDownIndex st) (lastDown st)
    (lastLow st) (lastUpIndex st) (lastUp st) (lastUpLow st) (lastUpOpen st)
    (lastHigh st) (lastLongIndex st) (lastShortIndex st).
Definition set_long_boxes (l : list Box) (st : State) : State :=
  mkState (short_boxes st) l (bos_lines st) (lastDownIndex st) (lastDown st)
    (lastLow st) (lastUpIndex st) (lastUp st) (lastUpLow st) (lastUpOpen st)
    (lastHigh st) (lastLongIndex st) (lastShortIndex st).
Definition set_bos_lines (l : list Box) (st : State) : State :=
  mkState (short_boxes st) (long_boxes st) l (lastDownIndex st) (lastDown st)
    (lastLow st) (lastUpIndex st) (lastUp st) (lastUpLow st) (lastUpOpen st)
    (lastHigh st) (lastLongIndex st) (lastShortIndex st).
Definition set_lastLongIndex (v : Z) (st : State) : State :=
  mkState (short_boxes st) (long_boxes st) (bos_lines st) (lastDownIndex st)
    (lastDown st) (lastLow st) (lastUpIndex st) (lastUp st) (lastUpLow st)
    (lastUpOpen st) (lastHigh st) v (lastShortIndex st).
Definition set_lastShortIndex (v : Z) (st : State) : State :=
  mkState (short_boxes st) (long_boxes st) (bos_lines st) (lastDownIndex st)
    (lastDown st) (lastLow st) (lastUpIndex st) (lastUp st) (lastUpLow st)
    (lastUpOpen st) (lastHigh st) (lastLongIndex st) v.
Definition set_lastHigh (v : Z) (st : State) : State :=
  mkState (short_boxes st) (long_boxes st) (bos_lines st) (lastDownIndex st)
    (lastDown st) (lastLow st) (lastUpIndex st) (lastUp st) (lastUpLow st)
    (lastUpOpen st) v (lastLongIndex st) (lastShortIndex st).
Definition set_lastLow (v : Z) (st : State) : State :=
  mkState (short_boxes st) (long_boxes st) (bos_lines st) (lastDownIndex st)
    (lastDown st) v (lastUpIndex st) (lastUp st) (lastUpLow st)
    (lastUpOpen st) (lastHigh st) (lastLongIndex st) (lastShortIndex st).

(** [l.remove(b)]: drops the first entry equal to [b]; [ValueError] when
    there is none. *)
Fixpoint list_remove (b : Box) (l : list Box) : option (list Box) :=
  match l with
  | [] => None
  | x :: r => if decide (x = b) then Some r
              else cons x <$> list_remove b r
  end.

Section Scan.

(** The frame, and the two attributes set by [calculate_structure_low]. *)
Variable data : list Candle.
Variable structureLow : list (option Z).
Variable structureLowIndex : list Z.

(** Lines 95-100: the bearish structure break of bar [i]. *)
Definition bearish_break (i : nat) (st : State) : option State :=
  lo ← Low <$> data !! i;
  sl ← structureLow !! i;
  match sl with
  | Some v =>
    if bool_decide (lo < v) then
      st1 ← (if bool_decide (Z.of_nat i - lastUpIndex st < 1000) then
               let short :=
                 add_order_block data (lastUpIndex st) (lastHigh st)
                   (lastUpLow st) "rgba(255,0,0,0.9)" in
               k ← structureLowIndex !! i;
               Some (set_bos_lines
                       (bos_lines st ++ [add_order_block data k v v "red"])
                       (set_short_boxes (short_boxes st ++ [short]) st))
             else Some st);
      Some (set_lastShortIndex (lastUpIndex st1) st1)
    else Some st
  | None => Some st
  end.

(** Lines 104-110: the body of [for box in self.short_boxes]. *)
Definition short_body (i : nat) (box : Box) (st : State) : option State :=
  cl ← Close <$> data !! i;
  if bool_decide (cl > b_top box) then
    l ← list_remove box (short_boxes st);
    let st1 := set_short_boxes l st in
    if bool_decide (Z.of_nat i - lastDownIndex st1 < 1000)
       && bool_decide (Z.of_nat i > lastLongIndex st1)
    then
      let long :=
        add_order_block data (lastDownIndex st1) (lastDown st1)
          (lastLow st1) "rgba(0,255,0,0.9)" in
      let line :=
        add_order_block data (b_left box) (b_top box) (b_top box)
          "green" in
      Some (set_lastLongIndex (Z.of_nat i)
              (set_bos_lines (bos_lines st1 ++ [line])
                 (set_long_boxes (long_boxes st1 ++ [long]) st1)))
    else Some st1
  else Some st.

(** The list iterator of the [for] statement: it holds a position [idx]
    into the live list, hands out the entry there and moves on one place,
    whatever the body did to the list meanwhile.  The list never grows
    during the loop, so [fuel] as large as its length is never used up. *)
Fixpoint short_loop (fuel : nat) (i idx : nat) (st : State)
  : option State :=
  match short_boxes st !! idx with
  | None => Some st
  | Some box =>
    match fuel with
    | O => None
    | S fuel' =>
      st' ← short_body i box st; short_loop fuel' i (S idx) st'
    end
  end.

(** Lines 102-110. *)
Definition short_pass (i : nat) (st : State) : option State :=
  if bool_decide (Z.of_nat (length (short_boxes st)) > 0)
  then short_loop (length (short_boxes st)) i 0 st
  else Some st.

(** Lines 114-115: the body of [for box in self.long_boxes]. *)
Definition long_body (i : nat) (box : Box) (st : State) : option State :=
  cl ← Close <$> data !! i;
  if bool_decide (cl < b_bottom box) then
    l ← list_remove box (long_boxes st);
    Some (set_long_boxes l st)
  else Some st.

Fixpoint long_loop (fuel : nat) (i idx : nat) (st : State)
  : option State :=
  match long_boxes st !! idx with
  | None => Some st
  | Some box =>
    match fuel with
    | O => None
    | S fuel' =>
      st' ← long_body i box st; long_loop fuel' i (S idx) st'
    end
  end.

(** Lines 112-115. *)
Definition long_pass (i : nat) (st : State) : option State :=
  if bool_decide (Z.of_nat (length (long_boxes st)) > 0)
  then long_loop (length (long_boxes st)) i 0 st
  else Some st.

(** Lines 118-132: the record of the last candles. *)
Definition tracker_update (i : nat) (st : State) : option State :=
  c ← data !! i;
  let st1 :=
    if bool_decide (Close c < Open c) then
      mkState (short_boxes st) (long_boxes st) (bos_lines st)
        (Z.of_nat i) (High c) (Low c)
        (lastUpIndex st) (lastUp st) (lastUpLow st) (lastUpOpen st)
        (lastHigh st) (lastLongIndex st) (lastShortIndex st)
    else st in
  let st2 :=
    if bool_decide (Close c > Open c) then
      mkState (short_boxes st1) (long_boxes st1) (bos_lines st1)
        (lastDownIndex st1) (lastDown st1) (lastLow st1)
        (Z.of_nat i) (Close c) (Low c) (Open c)
        (High c) (lastLongIndex st1) (lastShortIndex st1)
    else st1 in
  let st3 := set_lastHigh (Z.max (lastHigh st2) (High c)) st2 in
  Some (set_lastLow (Z.min (lastLow st3) (Low c)) st3).

(** One turn of the loop of [process_order_blocks]. *)
Definition process_bar (st : State) (i : nat) : option State :=
  st1 ← bearish_break i st;
  st2 ← short_pass i st1;
  st3 ← long_pass i st2;
  tracker_update i st3.

(** The object after the bars [0 .. k-1]. *)
Definition scan (k : nat) (st : State) : option State :=
  for_each process_bar (seq 0 k) st.

Definition process_order_blocks (st : State) : option State :=
  scan (length data) st.

End Scan.

(** The calls at the end of the file, up to the scan. *)
Definition engine (data : list Candle) (range_len : nat) : option State :=
  '(structureLow, structureLowIndex) ←
     calculate_structure_low data range_len;
  process_order_blocks data structureLow structureLowIndex _init_variables.

(** ** Reference levels *)

(** [xs[k]] by position, a negative [k] counting from the end;
    [IndexError] outside the list. *)
Definition getitem {A : Type} (xs : list A) (k : Z) : option A :=
  let n := Z.of_nat (length xs) in
  let p := if bool_decide (k < 0) then k + n else k in
  if bool_decide (0 ≤ p < n) then xs !! Z.to_nat p else None.

(** [calculate_pdh_pdl]: the pair ([self.pdh], [self.pdl]). *)
Definition calculate_pdh_pdl (data : list Candle) : option (Z * Z) :=
  pdh ← getitem (High <$> data) (-2);
  pdl ← getitem (Low <$> data) (-2);
  Some (pdh, pdl).


(** ** Notions the properties are stated with *)

(** A box drawn as a horizontal segment that runs to the last bar. *)
Definition horizontal_to_end (data : list Candle) (b : Box) : Prop :=
  b_right b = Z.of_nat (length data) - 1 ∧ b_top b = b_bottom b.

(** [st'] has the break lines of [st], in place and unchanged, followed by
    new ones, each a horizontal segment to the last bar. *)
Definition bos_extends (data : list Candle) (st st' : State) : Prop :=
  ∃ l, bos_lines st' = bos_lines st ++ l ∧ Forall (horizontal_to_end data) l.

(** The tracked bullish high is not below the tracked bullish low, and no
    active short zone is upside down. *)
Definition short_upright (st : State) : Prop :=
  lastUpLow st ≤ lastHigh st
  ∧ Forall (λ b, b_bottom b ≤ b_top b) (short_boxes st).


(** The step from [st] to [st'] keeps the property [P]. *)
Definition preserves (P : State → Prop) (st st' : State) : Prop :=
  P st → P st'.

(** Nothing has been drawn. *)
Definition nothing_drawn (st : State) : Prop :=
  short_boxes st = [] ∧ long_boxes st = [] ∧ bos_lines st = [].


(** The tracked bullish candle is the same in [st'] as in [st]. *)
Definition same_last_up (st st' : State) : Prop :=
  lastUpIndex st' = lastUpIndex st ∧ lastUpLow st' = lastUpLow st.

(** The index that the data model of the specification asks for, in the
    specification's words: the position, within the window of the
    [range_len] bars strictly before [i], of the bar that holds the minimum
    low of that window, the earliest one if several do. *)
Definition spec_structureLowIndex (data : list Candle) (range_len i : nat)
  : option Z :=
  let window := take range_len (drop (i - range_len) (Low <$> data)) in
  m ← agg_min window;
  hit ← list_find (λ x, x = m) window;
  Some (Z.of_nat (i - range_len + hit.1)).

(** What the specification calls a malformed series: some bar has its high
    below its low, or the time stamps do not run in order. *)
Fixpoint monotonic_timestamps (data : list Candle) : bool :=
  match data with
  | c1 :: rest =>
    match rest with
    | c2 :: _ =>
      bool_decide (timestamp c1 ≤ timestamp c2) && monotonic_timestamps rest
    | [] => true
    end
  | [] => true
  end.

Definition malformed (data : list Candle) : bool :=
  existsb (λ c, bool_decide (High c < Low c)) data
  || negb (monotonic_timestamps data).

(** ** Sample series *)

(** Window 1.  Two short zones are open before bar 4, with tops 12 and 11;
    bar 4 closes at 13, above both. *)
Definition two_zone_series : list Candle :=
  [ mkCandle 0 10 12 9 11; mkCandle 1 10 10 8 9; mkCandle 2 8 11 8 10;
    mkCandle 3 9 9 7 8; mkCandle 4 8 14 8 13 ].

(** Window 2.  The lows are 5, 3, 4: the window of bar 2 has its minimum at
    bar 1. *)
Definition dip_series : list Candle :=
  [ mkCandle 0 5 6 5 5; mkCandle 1 4 5 3 4; mkCandle 2 4 5 4 5 ].

(** Window 1.  Bar 0 has its high (8) below its low (9), and the time stamps
    run backwards. *)
Definition malformed_series : list Candle :=
  [ mkCandle 2 10 8 9 11; mkCandle 1 9 9 7 8 ].

(** Window 15, the default.  Fifteen falling bars with low 90, then a bar
    that falls to 80; no bar closes above its open. *)
Definition falling_series : list Candle :=
  ((λ t : nat, mkCandle (Z.of_nat t) 100 101 90 95) <$> seq 0 15)
  ++ [ mkCandle 15 95 96 80 85 ].


(** ** Drawing *)

(** The traces [visualize] adds to the figure, with the keyword arguments
    each call passes. *)
Inductive Trace :=
| Candlestick (x : list Z) (open high low close : list Z)
    (name : string) (showlegend : bool)
| Scatter (x y : list Z) (fill fillcolor : option string)
    (line_color : string) (line_dash : option string) (mode : string)
    (name : option string) (showlegend : option bool).

Record Figure := mkFigure {
  traces : list Trace;
  title : string;
  xaxis_title : string;
  yaxis_title : string;
  template : string
}.

(** Lines 160-170 (and 173-183): the rectangle drawn for one zone.
    [self.data.index[k]] is a lookup by position. *)
Definition zone_trace (data : list Candle) (box : Box) : option Trace :=
  let left_index := b_left box in
  let right_index := Z.min (b_right box) (Z.of_nat (length data) - 1) in
  xl ← getitem (timestamp <$> data) left_index;
  xr ← getitem (timestamp <$> data) right_index;
  Some (Scatter [xl; xr; xr; xl; xl]
          [b_top box; b_top box; b_bottom box; b_bottom box; b_top box]
          (Some "toself") (Some (b_color box)) (b_color box) None
          "lines" None (Some false)).

(** Lines 187-195: the segment drawn for one break line. *)
Definition line_trace (data : list Candle) (line : Box) : option Trace :=
  let left_index := b_left line in
  let right_index := Z.min (b_right line) (Z.of_nat (length data) - 1) in
  xl ← getitem (timestamp <$> data) left_index;
  xr ← getitem (timestamp <$> data) right_index;
  Some (Scatter [xl; xr] [b_top line; b_bottom line] None None
          (b_color line) None "lines" None (Some false)).

(** Lines 198-212: a dashed level from the first bar to the last. *)
Definition level_trace (data : list Candle) (level : Z)
    (color name : string) : option Trace :=
  x0 ← getitem (timestamp <$> data) 0;
  x1 ← getitem (timestamp <$> data) (-1);
  Some (Scatter [x0; x1] [level; level] None None color (Some "dash")
          "lines" (Some name) None).

(** [visualize], up to [fig.show()]: the figure it has built.  [pdh] and
    [pdl] are the attributes set by [calculate_pdh_pdl]. *)
Definition visualize (ticker : string) (data : list Candle) (st : State)
    (pdh pdl : Z) : option Figure :=
  let candles :=
    Candlestick (timestamp <$> data) (Open <$> data) (High <$> data)
      (Low <$> data) (Close <$> data) "Candlesticks" false in
  shorts ← mapM (zone_trace data) (short_boxes st);
  longs ← mapM (zone_trace data) (long_boxes st);
  lines ← mapM (line_trace data) (bos_lines st);
  high_level ← level_trace data pdh "blue" "PDH";
  low_level ← level_trace data pdl "orange" "PDL";
  Some {| traces :=
            [candles] ++ shorts ++ longs ++ lines
            ++ [high_level; low_level];
          title := ticker +:+ " Order Blocks and BOS";
          xaxis_title := "Date";
          yaxis_title := "Price";
          template := "plotly_dark" |}.

(** Lines 223-227, with the downloaded frame as [data]. *)
Definition script (ticker : string) (data : list Candle) (range_len : nat)
  : option Figure :=
  st ← engine data range_len;
  levels ← calculate_pdh_pdl data;
  visualize ticker data st levels.1 levels.2.

(** ** Further notions *)

(** A box that starts at a bar of the frame and ends at its last bar. *)
Definition in_frame (data : list Candle) (b : Box) : Prop :=
  0 ≤ b_left b ≤ b_right b ∧ b_right b = Z.of_nat (length data) - 1.

(** The tracker points at bars of the frame, and so does everything that
    has been drawn. *)
Definition frame_ok (data : list Candle) (st : State) : Prop :=
  0 ≤ lastUpIndex st ≤ Z.max 0 (Z.of_nat (length data) - 1)
  ∧ 0 ≤ lastDownIndex st ≤ Z.max 0 (Z.of_nat (length data) - 1)
  ∧ Forall (in_frame data) (short_boxes st)
  ∧ Forall (in_frame data) (long_boxes st)
  ∧ Forall (in_frame data) (bos_lines st).

(** The tracked bearish high is not below the tracked running low, and no
    active long zone is upside down. *)
Definition long_upright (st : State) : Prop :=
  lastLow st ≤ lastDown st
  ∧ Forall (λ b, b_bottom b ≤ b_top b) (long_boxes st).

(** From [st] to [st'] the short zones that satisfy [keep] stay, in their
    order, and no zone is added. *)
Definition short_kept (keep : Box → Prop) `{!∀ b, Decision (keep b)}
    (st st' : State) : Prop :=
  filter keep (short_boxes st') = filter keep (short_boxes st)
  ∧ short_boxes st' `sublist_of` short_boxes st.

Definition long_kept (keep : Box → Prop) `{!∀ b, Decision (keep b)}
    (st st' : State) : Prop :=
  filter keep (long_boxes st') = filter keep (long_boxes st)
  ∧ long_boxes st' `sublist_of` long_boxes st.

(** [lastLongIndex] has not gone back. *)
Definition long_index_advances (st st' : State) : Prop :=
  lastLongIndex st ≤ lastLongIndex st'.

(** Seen from a state with long zones [longs] and break lines [lines],
    bar [i] has so far added nothing to either list, or one long zone and
    one green line, after which [lastLongIndex] is [i]. *)
Definition one_flip (i : nat) (longs lines : list Box) (st : State) : Prop :=
  (long_boxes st = longs ∧ bos_lines st = lines)
  ∨ (∃ zone line, long_boxes st = longs ++ [zone]
       ∧ bos_lines st = lines ++ [line]
       ∧ b_color line = "green"
       ∧ lastLongIndex st = Z.of_nat i).

(** No list has grown by more than the stated number of boxes. *)
Definition grows_by (shorts longs lines : nat) (st st' : State) : Prop :=
  (length (short_boxes st') ≤ length (short_boxes st) + shorts)%nat
  ∧ (length (long_boxes st') ≤ length (long_boxes st) + longs)%nat
  ∧ (length (bos_lines st') ≤ length (bos_lines st) + lines)%nat.


(** The attribute [f] has the same value in [st'] as in [st]. *)
Definition same_on {A : Type} (f : State → A) (st st' : State) : Prop :=
  f st' = f st.


(** The fields written by the record of the last candles (lines 118-132). *)
Definition tracker_fields (st : State) : Z * Z * Z * Z * Z * Z * Z * Z :=
  (lastDownIndex st, lastDown st, lastLow st, lastUpIndex st, lastUp st,
   lastUpLow st, lastUpOpen st, lastHigh st).


(** A candle with its time stamp blanked: what is left is its prices. *)
Definition strip_timestamp (c : Candle) : Candle :=
  mkCandle 0 (Open c) (High c) (Low c) (Close c).


(** * Properties *)

(** ** The pandas operations *)

Lemma foldl_min_spec (r : list Z) (x : Z) :
  (foldl Z.min x r = x ∨ foldl Z.min x r ∈ r)
  ∧ foldl Z.min x r ≤ x
  ∧ ∀ y, y ∈ r → foldl Z.min x r ≤ y.
Proof.
  revert x. induction r as [|a r IH]; intros x; simpl.
  - split; [by left|]. split; [lia|]. intros y Hy. by apply elem_of_nil in Hy.
  - destruct (IH (Z.min x a)) as (Hin & Hle & Hall).
    split; [|split].
    + destruct Hin as [Heq|Hin].
      * rewrite Heq. destruct (Z.min_spec x a) as [[_ ->]|[_ ->]];
          [by left|right; by left].
      * right. by right.
    + lia.
    + intros y Hy. apply elem_of_cons in Hy as [->|Hy]; [lia|by apply Hall].
Qed.

Lemma agg_min_spec (xs : list Z) (m : Z) :
  agg_min xs = Some m → m ∈ xs ∧ ∀ y, y ∈ xs → m ≤ y.
Proof.
  destruct xs as [|x r]; [done|]. simpl. intros [= <-].
  destruct (foldl_min_spec r x) as (Hin & Hle & Hall). split.
  - destruct Hin as [->|Hin]; [by left|by right].
  - intros y Hy. apply elem_of_cons in Hy as [->|Hy]; [done|by apply Hall].
Qed.

Lemma agg_min_is_Some (xs : list Z) : xs ≠ [] → is_Some (agg_min xs).
Proof. destruct xs; [done|]. by eexists. Qed.

Lemma length_rolling agg w xs : length (rolling agg w xs) = length xs.
Proof. unfold rolling. by rewrite length_imap. Qed.

Lemma rolling_lookup agg w xs (i : nat) :
  (i < length xs)%nat →
  rolling agg w xs !! i
  = Some (if decide (i + 1 < w)%nat then None
          else agg (take w (drop (i + 1 - w) xs))).
Proof.
  intros Hi. unfold rolling. rewrite list_lookup_imap.
  destruct (lookup_lt_is_Some_2 xs i Hi) as [x ->]. done.
Qed.

Lemma length_shift1 ys : length (shift1 ys) = length ys.
Proof. unfold shift1. rewrite length_take. simpl. lia. Qed.

Lemma shift1_lookup_0 ys : ys ≠ [] → shift1 ys !! 0%nat = Some None.
Proof. destruct ys; [done|]. done. Qed.

Lemma shift1_lookup_S ys (i : nat) :
  (S i < length ys)%nat → shift1 ys !! S i = ys !! i.
Proof. intros Hi. unfold shift1. by rewrite lookup_take_lt. Qed.

(** Before the window is full the shifted rolling series holds [NaN]. *)
Lemma shift1_rolling_early agg (w : nat) xs (i : nat) :
  (0 < w)%nat → (i < length xs)%nat → (i < w)%nat →
  shift1 (rolling agg w xs) !! i = Some None.
Proof.
  intros Hw Hi Hiw. destruct i as [|i].
  - apply shift1_lookup_0. intros E.
    apply (f_equal length) in E. rewrite length_rolling in E. simpl in E. lia.
  - rewrite shift1_lookup_S; [|rewrite length_rolling; lia].
    rewrite rolling_lookup; [|lia]. by rewrite decide_True by lia.
Qed.

(** Once it is full, position [i] aggregates the [w] entries before [i]. *)
Lemma shift1_rolling_late agg (w : nat) xs (i : nat) :
  (0 < w)%nat → (i < length xs)%nat → (w ≤ i)%nat →
  shift1 (rolling agg w xs) !! i
  = Some (agg (take w (drop (i - w) xs))).
Proof.
  intros Hw Hi Hiw. destruct i as [|i]; [lia|].
  rewrite shift1_lookup_S; [|rewrite length_rolling; lia].
  rewrite rolling_lookup; [|lia]. rewrite decide_False by lia.
  f_equal. f_equal. f_equal. f_equal. lia.
Qed.

Lemma elem_of_window (xs : list Z) (w i : nat) (m : Z) :
  m ∈ take w (drop (i - w) xs) ↔
  ∃ j : nat, (i - w ≤ j < i - w + w)%nat ∧ xs !! j = Some m.
Proof.
  rewrite list_elem_of_lookup. split.
  - intros [k Hk]. apply lookup_take_Some in Hk as [Hk Hkw].
    rewrite lookup_drop in Hk. exists (i - w + k)%nat. split; [lia|done].
  - intros (j & Hj & Hm). exists (j - (i - w))%nat.
    apply lookup_take_Some. split; [|lia].
    rewrite lookup_drop. by replace (i - w + (j - (i - w)))%nat with j by lia.
Qed.

(** ** Loops *)

Lemma for_each_app {S : Type} (body : S → nat → option S) l1 l2 (s : S) :
  for_each body (l1 ++ l2) s = for_each body l1 s ≫= for_each body l2.
Proof.
  revert s. induction l1 as [|i l1 IH]; intros s; simpl; [done|].
  destruct (body s i) as [s'|]; simpl; [apply IH|done].
Qed.

(** A body that leaves the state alone wherever it returns makes the whole
    loop leave it alone. *)
Lemma for_each_stable {S : Type} (body : S → nat → option S) range (s : S) :
  (∀ i s', i ∈ range → body s i = Some s' → s' = s) →
  ∀ s', for_each body range s = Some s' → s' = s.
Proof.
  induction range as [|i range IH]; intros Hbody s'; simpl.
  - by intros [= <-].
  - destruct (body s i) as [s1|] eqn:E; simpl; [|done].
    assert (s1 = s) as -> by (eapply Hbody; [by left|done]).
    apply IH. intros j s2 Hj. apply Hbody. by right.
Qed.

Lemma for_each_fixed {S : Type} (body : S → nat → option S) range (s : S) :
  (∀ i, i ∈ range → body s i = Some s) → for_each body range s = Some s.
Proof.
  induction range as [|i range IH]; intros Hbody; simpl; [done|].
  rewrite Hbody; [|by left]. simpl. apply IH. intros j Hj. apply Hbody.
  by right.
Qed.

(** ** Structure extractor *)

Lemma length_structureLow_series data w :
  length (structureLow_series data w) = length data.
Proof.
  unfold structureLow_series.
  by rewrite length_shift1, length_rolling, length_fmap.
Qed.

(** Inside the range of its loop, [structureLowIndexPointer] compares every
    low with a [NaN], so a turn either raises or changes nothing. *)
Lemma pointer_step_bootstrap data (w i : nat) acc :
  (1 ≤ i < w)%nat →
  pointer_step data
    (shift1 (rolling agg_max w (High <$> data)),
     Z.of_nat <$> seq 0 (length data)) i = Some acc →
  acc = (shift1 (rolling agg_max w (High <$> data)),
         Z.of_nat <$> seq 0 (length data)).
Proof.
  intros Hi. unfold pointer_step. simpl.
  destruct (data !! i) as [c|] eqn:Hc; simpl; [|done].
  apply lookup_lt_Some in Hc.
  rewrite shift1_rolling_early; [|lia|by rewrite length_fmap|lia].
  simpl. by intros [= <-].
Qed.

Lemma pointer_step_in_range data (w i : nat) :
  (1 ≤ i < w)%nat → (i < length data)%nat →
  pointer_step data
    (shift1 (rolling agg_max w (High <$> data)),
     Z.of_nat <$> seq 0 (length data)) i
  = Some (shift1 (rolling agg_max w (High <$> data)),
          Z.of_nat <$> seq 0 (length data)).
Proof.
  intros Hi Hlen. unfold pointer_step. simpl.
  destruct (lookup_lt_is_Some_2 data i Hlen) as [c ->]. simpl.
  rewrite shift1_rolling_early; [|lia|by rewrite length_fmap|lia]. done.
Qed.

(** Whenever it returns, [structureLowIndexPointer] returns
    [list(range(len(data)))] untouched. *)
Lemma structureLowIndexPointer_range data w sli :
  structureLowIndexPointer data w = Some sli →
  sli = Z.of_nat <$> seq 0 (length data).
Proof.
  unfold structureLowIndexPointer. intros H.
  apply fmap_Some in H as (acc & Hacc & ->).
  apply for_each_stable in Hacc; [by subst acc|].
  intros i s' Hi. apply elem_of_seq in Hi.
  apply pointer_step_bootstrap. lia.
Qed.

(** It returns when the window is no longer than the series. *)
Lemma structureLowIndexPointer_returns data (w : nat) :
  (w ≤ length data)%nat →
  structureLowIndexPointer data w = Some (Z.of_nat <$> seq 0 (length data)).
Proof.
  intros Hw. unfold structureLowIndexPointer.
  rewrite for_each_fixed; [done|].
  intros i Hi. apply elem_of_seq in Hi.
  apply pointer_step_in_range; lia.
Qed.

(** It raises when the window is longer than the series and longer than
    one bar: the loop reads [data['Low'][i]] past the end. *)
Lemma structureLowIndexPointer_raises data (w : nat) :
  (length data < w)%nat → (2 ≤ w)%nat →
  structureLowIndexPointer data w = None.
Proof.
  intros Hlen Hw.
  destruct (structureLowIndexPointer data w) as [sli|] eqn:E; [|done].
  exfalso. unfold structureLowIndexPointer in E.
  apply fmap_Some in E as (acc & Hacc & _).
  set (n := Nat.max (length data) 1) in *.
  replace (seq 1 (w - 1)) with (seq 1 (n - 1) ++ seq n (w - n)) in Hacc.
  2:{ replace (w - 1)%nat with ((n - 1) + (w - n))%nat by lia.
      rewrite seq_app. do 2 f_equal. lia. }
  rewrite for_each_app in Hacc.
  rewrite for_each_fixed in Hacc.
  2:{ intros i Hi. apply elem_of_seq in Hi.
      apply pointer_step_in_range; lia. }
  simpl in Hacc. destruct (w - n)%nat as [|k] eqn:Hk; [lia|].
  simpl in Hacc. apply bind_Some in Hacc as (s1 & Hs1 & _).
  unfold pointer_step in Hs1.
  rewrite (lookup_ge_None_2 data n) in Hs1 by lia. done.
Qed.

Lemma calculate_structure_low_returns data (w : nat) :
  (w ≤ length data)%nat →
  calculate_structure_low data w
  = Some (structureLow_series data w, Z.of_nat <$> seq 0 (length data)).
Proof.
  intros Hw. unfold calculate_structure_low.
  by rewrite structureLowIndexPointer_returns.
Qed.

Lemma calculate_structure_low_Some data w sl sli :
  calculate_structure_low data w = Some (sl, sli) →
  sl = structureLow_series data w ∧ sli = Z.of_nat <$> seq 0 (length data).
Proof.
  unfold calculate_structure_low. intros H.
  apply bind_Some in H as (l & Hl & [= <- <-]).
  split; [done|]. by apply (structureLowIndexPointer_range data w).
Qed.

(** ** The engine, phase by phase *)

Lemma list_remove_elem_of b l l' x :
  list_remove b l = Some l' → x ∈ l' → x ∈ l.
Proof.
  revert l'. induction l as [|y r IH]; intros l'; simpl; [done|].
  destruct (decide (y = b)) as [->|Hne].
  - intros [= <-] Hx. by right.
  - intros H. apply fmap_Some in H as (r' & Hr' & ->).
    intros Hx. apply elem_of_cons in Hx as [->|Hx]; [by left|].
    right. by eapply IH.
Qed.

Lemma list_remove_length b l l' :
  list_remove b l = Some l' → length l = S (length l').
Proof.
  revert l'. induction l as [|y r IH]; intros l'; simpl; [done|].
  destruct (decide (y = b)) as [->|Hne].
  - by intros [= <-].
  - intros H. apply fmap_Some in H as (r' & Hr' & ->).
    simpl. f_equal. by apply IH.
Qed.

Lemma list_remove_is_Some b l : b ∈ l → is_Some (list_remove b l).
Proof.
  induction l as [|y r IH]; intros Hb; simpl.
  - by apply elem_of_nil in Hb.
  - destruct (decide (y = b)) as [->|Hne]; [by eexists|].
    apply elem_of_cons in Hb as [->|Hb]; [done|].
    destruct (IH Hb) as [r' ->]. by eexists.
Qed.

Lemma for_each_rel {S : Type} (R : S → S → Prop)
    `{!Reflexive R, !Transitive R} (body : S → nat → option S) range :
  (∀ i s s', i ∈ range → body s i = Some s' → R s s') →
  ∀ s s', for_each body range s = Some s' → R s s'.
Proof.
  induction range as [|i range IH]; intros Hbody s s'; simpl.
  - by intros [= <-].
  - intros H. apply bind_Some in H as (s1 & Hs1 & Hrest).
    trans s1.
    + eapply Hbody; [by left|done].
    + eapply IH; [|done]. intros j t t' Hj. apply Hbody. by right.
Qed.

Section ScanFacts.

Variable data : list Candle.
Variable structureLow : list (option Z).
Variable structureLowIndex : list Z.

Local Abbreviation bearish_break := (bearish_break data structureLow structureLowIndex).
Local Abbreviation short_body := (short_body data).
Local Abbreviation short_loop := (short_loop data).
Local Abbreviation short_pass := (short_pass data).
Local Abbreviation long_body := (long_body data).
Local Abbreviation long_loop := (long_loop data).
Local Abbreviation long_pass := (long_pass data).
Local Abbreviation tracker_update := (tracker_update data).
Local Abbreviation process_bar := (process_bar data structureLow structureLowIndex).
Local Abbreviation scan := (scan data structureLow structureLowIndex).

Lemma scan_S (k : nat) st :
  scan (S k) st = scan k st ≫= λ s, process_bar s k.
Proof.
  unfold scan. rewrite seq_S, for_each_app. simpl.
  destruct (for_each _ _ _) as [s|]; simpl; [|done].
  by destruct (process_bar s k).
Qed.

Lemma scan_add (j d : nat) st :
  scan (j + d) st = scan j st ≫= for_each process_bar (seq j d).
Proof. unfold scan. by rewrite seq_app, for_each_app. Qed.

(** A bar can only be processed if it exists. *)
Lemma process_bar_lt (i : nat) st st' :
  process_bar st i = Some st' → (i < length data)%nat.
Proof.
  unfold process_bar. intros H.
  apply bind_Some in H as (st1 & H1 & _).
  unfold bearish_break in H1.
  apply bind_Some in H1 as (lo & Hlo & _).
  apply fmap_Some in Hlo as (c & Hc & _). by apply lookup_lt_Some in Hc.
Qed.

Section Relation.

(** A relation between object states that every phase of a bar respects
    is respected by the whole scan. *)
Variable R : State → State → Prop.
Context `{!Reflexive R, !Transitive R}.

Lemma short_loop_rel (i : nat) :
  (∀ box st st', box ∈ short_boxes st →
     short_body i box st = Some st' → R st st') →
  ∀ fuel idx st st', short_loop fuel i idx st = Some st' → R st st'.
Proof.
  intros Hbody. induction fuel as [|fuel IH]; intros idx st st'; simpl.
  - destruct (short_boxes st !! idx); [done|]. by intros [= <-].
  - destruct (short_boxes st !! idx) as [box|] eqn:Hbox;
      [|by intros [= <-]].
    intros H. apply bind_Some in H as (s1 & Hs1 & Hrest).
    trans s1; [|by eapply IH].
    eapply Hbody; [|done]. by eapply list_elem_of_lookup_2.
Qed.

Lemma long_loop_rel (i : nat) :
  (∀ box st st', box ∈ long_boxes st →
     long_body i box st = Some st' → R st st') →
  ∀ fuel idx st st', long_loop fuel i idx st = Some st' → R st st'.
Proof.
  intros Hbody. induction fuel as [|fuel IH]; intros idx st st'; simpl.
  - destruct (long_boxes st !! idx); [done|]. by intros [= <-].
  - destruct (long_boxes st !! idx) as [box|] eqn:Hbox;
      [|by intros [= <-]].
    intros H. apply bind_Some in H as (s1 & Hs1 & Hrest).
    trans s1; [|by eapply IH].
    eapply Hbody; [|done]. by eapply list_elem_of_lookup_2.
Qed.

Lemma process_bar_rel_at (i : nat) st st' :
  (∀ s s', bearish_break i s = Some s' → R s s') →
  (∀ box s s', box ∈ short_boxes s → short_body i box s = Some s' → R s s') →
  (∀ box s s', box ∈ long_boxes s → long_body i box s = Some s' → R s s') →
  (∀ s s', tracker_update i s = Some s' → R s s') →
  process_bar st i = Some st' → R st st'.
Proof.
  intros Hbreak Hshort Hlong Htracker. unfold process_bar. intros H.
  apply bind_Some in H as (st1 & H1 & H).
  apply bind_Some in H as (st2 & H2 & H).
  apply bind_Some in H as (st3 & H3 & H4).
  trans st1; [by apply Hbreak|].
  trans st2.
  { unfold short_pass in H2. case_bool_decide.
    - eapply short_loop_rel; [|done]. apply Hshort.
    - by injection H2 as <-. }
  trans st3; [|by apply Htracker].
  unfold long_pass in H3. case_bool_decide.
  - eapply long_loop_rel; [|done]. apply Hlong.
  - by injection H3 as <-.
Qed.

Hypothesis bearish_break_rel : ∀ i st st',
  bearish_break i st = Some st' → R st st'.
Hypothesis short_body_rel : ∀ i box st st',
  box ∈ short_boxes st → short_body i box st = Some st' → R st st'.
Hypothesis long_body_rel : ∀ i box st st',
  box ∈ long_boxes st → long_body i box st = Some st' → R st st'.
Hypothesis tracker_update_rel : ∀ i st st',
  tracker_update i st = Some st' → R st st'.

Lemma process_bar_rel (i : nat) st st' :
  process_bar st i = Some st' → R st st'.
Proof.
  apply process_bar_rel_at.
  - apply bearish_break_rel.
  - apply short_body_rel.
  - apply long_body_rel.
  - apply tracker_update_rel.
Qed.

Lemma scan_rel (k : nat) st st' : scan k st = Some st' → R st st'.
Proof.
  apply for_each_rel; [done..|]. intros i s s' _. apply process_bar_rel.
Qed.

Lemma scan_rel_between (j k : nat) st_j st_k :
  (j ≤ k)%nat →
  scan j _init_variables = Some st_j → scan k _init_variables = Some st_k →
  R st_j st_k.
Proof.
  intros Hjk Hj Hk. replace k with (j + (k - j))%nat in Hk by lia.
  rewrite scan_add, Hj in Hk. simpl in Hk.
  eapply for_each_rel; [done..| |done].
  intros i s s' _. apply process_bar_rel.
Qed.

End Relation.

End ScanFacts.

(** ** Break lines *)

Section BosLines.

Variable data : list Candle.
Variable structureLow : list (option Z).
Variable structureLowIndex : list Z.

#[local] Instance bos_extends_refl : Reflexive (bos_extends data).
Proof. intros st. exists []. by rewrite app_nil_r. Qed.

#[local] Instance bos_extends_trans : Transitive (bos_extends data).
Proof.
  intros s1 s2 s3 (l1 & E1 & F1) (l2 & E2 & F2). exists (l1 ++ l2).
  split; [by rewrite E2, E1, app_assoc|by apply Forall_app].
Qed.

Lemma bos_extends_same st st' :
  bos_lines st' = bos_lines st → bos_extends data st st'.
Proof. intros E. exists []. by rewrite app_nil_r. Qed.

Lemma bos_extends_one st st' b :
  bos_lines st' = bos_lines st ++ [b] → horizontal_to_end data b →
  bos_extends data st st'.
Proof. intros E Hb. exists [b]. split; [done|]. by apply Forall_singleton. Qed.

Lemma bearish_break_bos (i : nat) st st' :
  bearish_break data structureLow structureLowIndex i st = Some st' →
  bos_extends data st st'.
Proof.
  unfold bearish_break. intros H.
  apply bind_Some in H as (lo & _ & H).
  apply bind_Some in H as ([v|] & _ & H); [|by injection H as <-].
  case_bool_decide; [|by injection H as <-].
  apply bind_Some in H as (st1 & H1 & [= <-]).
  case_bool_decide; [|injection H1 as <-; by apply bos_extends_same].
  apply bind_Some in H1 as (k & _ & [= <-]).
  by eapply bos_extends_one.
Qed.

Lemma short_body_bos (i : nat) box st st' :
  short_body data i box st = Some st' → bos_extends data st st'.
Proof.
  unfold short_body. intros H.
  apply bind_Some in H as (cl & _ & H).
  case_bool_decide; [|by injection H as <-].
  apply bind_Some in H as (l & _ & H).
  destruct (_ && _); injection H as <-.
  - by eapply bos_extends_one.
  - by apply bos_extends_same.
Qed.

Lemma long_body_bos (i : nat) box st st' :
  long_body data i box st = Some st' → bos_extends data st st'.
Proof.
  unfold long_body. intros H.
  apply bind_Some in H as (cl & _ & H).
  case_bool_decide; [|by injection H as <-].
  apply bind_Some in H as (l & _ & [= <-]). by apply bos_extends_same.
Qed.

Lemma tracker_update_bos (i : nat) st st' :
  tracker_update data i st = Some st' → bos_extends data st st'.
Proof.
  unfold tracker_update. intros H.
  apply bind_Some in H as (c & _ & [= <-]).
  apply bos_extends_same. by repeat case_bool_decide.
Qed.

Lemma scan_bos_between (j k : nat) st_j st_k :
  (j ≤ k)%nat →
  scan data structureLow structureLowIndex j _init_variables = Some st_j →
  scan data structureLow structureLowIndex k _init_variables = Some st_k →
  bos_extends data st_j st_k.
Proof.
  apply scan_rel_between; try apply _.
  - apply bearish_break_bos.
  - intros i box st st' _. apply short_body_bos.
  - intros i box st st' _. apply long_body_bos.
  - apply tracker_update_bos.
Qed.

End BosLines.

(** ** Invariants of the scan *)

#[local] Instance preserves_refl P : Reflexive (preserves P).
Proof. intros st H. exact H. Qed.

#[local] Instance preserves_trans P : Transitive (preserves P).
Proof. intros s1 s2 s3 H12 H23 H1. by apply H23, H12. Qed.

Section ShortZones.

Variable data : list Candle.
Variable structureLow : list (option Z).
Variable structureLowIndex : list Z.
Hypothesis high_above_low : ∀ c, c ∈ data → Low c ≤ High c.

Lemma bearish_break_upright (i : nat) st st' :
  bearish_break data structureLow structureLowIndex i st = Some st' →
  preserves short_upright st st'.
Proof.
  unfold bearish_break. intros H Hup. pose proof Hup as [Htr Hall].
  apply bind_Some in H as (lo & _ & H).
  apply bind_Some in H as ([v|] & _ & H); [|by injection H as <-].
  case_bool_decide; [|by injection H as <-].
  apply bind_Some in H as (st1 & H1 & [= <-]).
  case_bool_decide; [|by injection H1 as <-].
  apply bind_Some in H1 as (k & _ & [= <-]).
  split; simpl; [done|]. apply Forall_app. split; [done|].
  by apply Forall_singleton.
Qed.

Lemma short_body_upright (i : nat) box st st' :
  short_body data i box st = Some st' → preserves short_upright st st'.
Proof.
  unfold short_body. intros H Hup. pose proof Hup as [Htr Hall].
  apply bind_Some in H as (cl & _ & H).
  case_bool_decide; [|by injection H as <-].
  apply bind_Some in H as (l & Hl & H).
  assert (Forall (λ b, b_bottom b ≤ b_top b) l) as Hl'.
  { rewrite Forall_forall in Hall. apply Forall_forall. intros x Hx.
    apply Hall. by eapply list_remove_elem_of. }
  by destruct (_ && _); injection H as <-.
Qed.

Lemma long_body_upright (i : nat) box st st' :
  long_body data i box st = Some st' → preserves short_upright st st'.
Proof.
  unfold long_body. intros H Hup.
  apply bind_Some in H as (cl & _ & H).
  case_bool_decide; [|by injection H as <-].
  by apply bind_Some in H as (l & _ & [= <-]).
Qed.

Lemma tracker_update_upright (i : nat) st st' :
  tracker_update data i st = Some st' → preserves short_upright st st'.
Proof.
  unfold tracker_update. intros H [Htr Hall].
  apply bind_Some in H as (c & Hc & [= <-]).
  apply list_elem_of_lookup_2, high_above_low in Hc.
  split; repeat case_bool_decide; simpl; try done; lia.
Qed.

Lemma scan_upright (k : nat) st :
  scan data structureLow structureLowIndex k _init_variables = Some st →
  short_upright st.
Proof.
  intros H. eapply (scan_rel _ _ _ (preserves short_upright)) in H.
  - apply H. split; simpl; [done|]. apply Forall_nil_2.
  - apply bearish_break_upright.
  - intros i box s s' _. apply short_body_upright.
  - intros i box s s' _. apply long_body_upright.
  - apply tracker_update_upright.
Qed.

End ShortZones.

(** ** The scan returns *)

Section Returns.

Variable data : list Candle.
Variable structureLow : list (option Z).
Variable structureLowIndex : list Z.
Hypothesis length_structureLow : length structureLow = length data.
Hypothesis length_structureLowIndex : length structureLowIndex = length data.

Lemma bearish_break_returns (i : nat) st :
  (i < length data)%nat →
  is_Some (bearish_break data structureLow structureLowIndex i st).
Proof.
  intros Hi. unfold bearish_break.
  destruct (lookup_lt_is_Some_2 data i Hi) as [c ->].
  destruct (lookup_lt_is_Some_2 structureLow i) as [sl ->]; [lia|].
  destruct (lookup_lt_is_Some_2 structureLowIndex i) as [k ->]; [lia|].
  simpl. destruct sl as [v|]; [|by eexists].
  repeat case_bool_decide; by eexists.
Qed.

Lemma short_body_returns (i : nat) box st :
  (i < length data)%nat → box ∈ short_boxes st →
  ∃ st', short_body data i box st = Some st'
         ∧ (length (short_boxes st') ≤ length (short_boxes st))%nat.
Proof.
  intros Hi Hbox. unfold short_body.
  destruct (lookup_lt_is_Some_2 data i Hi) as [c ->]. simpl.
  case_bool_decide; [|by eexists].
  destruct (list_remove_is_Some _ _ Hbox) as [l Hl]. rewrite Hl. simpl.
  apply list_remove_length in Hl.
  destruct (_ && _); eexists; (split; [done|]); simpl; lia.
Qed.

Lemma short_loop_returns (i : nat) :
  (i < length data)%nat →
  ∀ fuel idx st, (length (short_boxes st) ≤ idx + fuel)%nat →
    is_Some (short_loop data fuel i idx st).
Proof.
  intros Hi. induction fuel as [|fuel IH]; intros idx st Hlen; simpl.
  - destruct (short_boxes st !! idx) eqn:E; [|by eexists].
    apply lookup_lt_Some in E. lia.
  - destruct (short_boxes st !! idx) as [box|] eqn:E; [|by eexists].
    destruct (short_body_returns i box st) as (st' & -> & Hle);
      [done|by eapply list_elem_of_lookup_2|].
    simpl. apply IH. lia.
Qed.

Lemma long_body_returns (i : nat) box st :
  (i < length data)%nat → box ∈ long_boxes st →
  ∃ st', long_body data i box st = Some st'
         ∧ (length (long_boxes st') ≤ length (long_boxes st))%nat.
Proof.
  intros Hi Hbox. unfold long_body.
  destruct (lookup_lt_is_Some_2 data i Hi) as [c ->]. simpl.
  case_bool_decide; [|by eexists].
  destruct (list_remove_is_Some _ _ Hbox) as [l Hl]. rewrite Hl. simpl.
  apply list_remove_length in Hl. eexists. split; [done|]. simpl. lia.
Qed.

Lemma long_loop_returns (i : nat) :
  (i < length data)%nat →
  ∀ fuel idx st, (length (long_boxes st) ≤ idx + fuel)%nat →
    is_Some (long_loop data fuel i idx st).
Proof.
  intros Hi. induction fuel as [|fuel IH]; intros idx st Hlen; simpl.
  - destruct (long_boxes st !! idx) eqn:E; [|by eexists].
    apply lookup_lt_Some in E. lia.
  - destruct (long_boxes st !! idx) as [box|] eqn:E; [|by eexists].
    destruct (long_body_returns i box st) as (st' & -> & Hle);
      [done|by eapply list_elem_of_lookup_2|].
    simpl. apply IH. lia.
Qed.

Lemma process_bar_returns (i : nat) st :
  (i < length data)%nat →
  is_Some (process_bar data structureLow structureLowIndex st i).
Proof.
  intros Hi. unfold process_bar.
  destruct (bearish_break_returns i st Hi) as [st1 ->]. simpl.
  assert (is_Some (short_pass data i st1)) as [st2 ->].
  { unfold short_pass. case_bool_decide; [|by eexists].
    apply short_loop_returns; [done|lia]. }
  simpl.
  assert (is_Some (long_pass data i st2)) as [st3 ->].
  { unfold long_pass. case_bool_decide; [|by eexists].
    apply long_loop_returns; [done|lia]. }
  simpl. unfold tracker_update.
  destruct (lookup_lt_is_Some_2 data i Hi) as [c ->]. by eexists.
Qed.

Lemma scan_returns (k : nat) st :
  (k ≤ length data)%nat →
  is_Some (scan data structureLow structureLowIndex k st).
Proof.
  induction k as [|k IH]; intros Hk; [by eexists|].
  rewrite scan_S. destruct IH as [s ->]; [lia|]. simpl.
  apply process_bar_returns. lia.
Qed.

End Returns.

Lemma engine_returns data (w : nat) :
  (w ≤ length data)%nat → is_Some (engine data w).
Proof.
  intros Hw. unfold engine.
  rewrite calculate_structure_low_returns by done. simpl.
  apply scan_returns; [|by rewrite length_fmap, length_seq|done].
  apply length_structureLow_series.
Qed.

(** ** A series no longer than the window *)

Section NothingDrawn.

Variable data : list Candle.
Variable structureLow : list (option Z).
Variable structureLowIndex : list Z.
Hypothesis no_structural_low : ∀ i : nat,
  (i < length data)%nat → structureLow !! i = Some None.

Lemma bearish_break_unavailable (i : nat) st st' :
  bearish_break data structureLow structureLowIndex i st = Some st' →
  st' = st.
Proof.
  unfold bearish_break. intros H.
  apply bind_Some in H as (lo & Hlo & H).
  apply fmap_Some in Hlo as (c & Hc & _). apply lookup_lt_Some in Hc.
  rewrite no_structural_low in H by done. by injection H as <-.
Qed.

Lemma scan_nothing_drawn (k : nat) st :
  scan data structureLow structureLowIndex k _init_variables = Some st →
  nothing_drawn st.
Proof.
  intros H.
  apply (for_each_rel (preserves nothing_drawn)) in H; [by apply H|].
  intros i s s' _. apply process_bar_rel_at; try apply _.
  - intros t t' Ht. by rewrite (bearish_break_unavailable _ _ _ Ht).
  - intros box t t' Hbox _ (Hshort & _). rewrite Hshort in Hbox.
    by apply elem_of_nil in Hbox.
  - intros box t t' Hbox _ (_ & Hlong & _). rewrite Hlong in Hbox.
    by apply elem_of_nil in Hbox.
  - unfold tracker_update. intros t t' Ht.
    apply bind_Some in Ht as (c & _ & [= <-]).
    intros Hnd. unfold nothing_drawn. by repeat case_bool_decide.
Qed.

End NothingDrawn.

(** ** Before the first bullish candle *)

#[local] Instance same_last_up_refl : Reflexive same_last_up.
Proof. by intros st. Qed.

#[local] Instance same_last_up_trans : Transitive same_last_up.
Proof. intros s1 s2 s3 [E1 F1] [E2 F2]. split; congruence. Qed.

Section NoBullish.

Variable data : list Candle.
Variable structureLow : list (option Z).
Variable structureLowIndex : list Z.

Lemma process_bar_not_bullish (i : nat) c st st' :
  data !! i = Some c → ¬ Close c > Open c →
  process_bar data structureLow structureLowIndex st i = Some st' →
  same_last_up st st'.
Proof.
  intros Hc Hnb. apply process_bar_rel_at; try apply _.
  - unfold bearish_break. intros s s' H.
    apply bind_Some in H as (lo & _ & H).
    apply bind_Some in H as ([v|] & _ & H); [|by injection H as <-].
    case_bool_decide; [|by injection H as <-].
    apply bind_Some in H as (st1 & H1 & [= <-]).
    case_bool_decide; [|by injection H1 as <-].
    by apply bind_Some in H1 as (k & _ & [= <-]).
  - unfold short_body. intros box s s' _ H.
    apply bind_Some in H as (cl & _ & H).
    case_bool_decide; [|by injection H as <-].
    apply bind_Some in H as (l & _ & H).
    by destruct (_ && _); injection H as <-.
  - unfold long_body. intros box s s' _ H.
    apply bind_Some in H as (cl & _ & H).
    case_bool_decide; [|by injection H as <-].
    by apply bind_Some in H as (l & _ & [= <-]).
  - unfold tracker_update. intros s s' H. rewrite Hc in H. simpl in H.
    injection H as <-. rewrite (bool_decide_eq_false_2 _ Hnb).
    by case_bool_decide.
Qed.

(** While no bar has closed above its open, the tracker still points at
    index 0 with low 0, the values [_init_variables] gave it. *)
Lemma scan_not_bullish (k : nat) st :
  Forall (λ c, ¬ Close c > Open c) (take k data) →
  scan data structureLow structureLowIndex k _init_variables = Some st →
  lastUpIndex st = 0 ∧ lastUpLow st = 0.
Proof.
  revert st. induction k as [|k IH]; intros st Hall.
  - by intros [= <-].
  - rewrite scan_S. intros H. apply bind_Some in H as (s & Hs & Hbar).
    rewrite Forall_lookup in Hall.
    destruct (IH s) as [E1 E2]; [|done|].
    { apply Forall_lookup. intros j c Hj. apply (Hall j).
      apply lookup_take_Some in Hj as [Hj Hjk].
      apply lookup_take_Some. split; [done|lia]. }
    pose proof (process_bar_lt _ _ _ _ _ _ Hbar) as Hk.
    destruct (lookup_lt_is_Some_2 data k Hk) as [c Hc].
    destruct (process_bar_not_bullish k c s st Hc) as [F1 F2]; [|done|].
    + apply (Hall k). apply lookup_take_Some. split; [done|lia].
    + split; congruence.
Qed.

(** A break at bar [i] puts a short zone on the list, built from the
    tracker as it stands. *)
Lemma bearish_break_emits (i : nat) st lo v k :
  Low <$> data !! i = Some lo → structureLow !! i = Some (Some v) →
  structureLowIndex !! i = Some k →
  lo < v → Z.of_nat i - lastUpIndex st < 1000 →
  ∃ st', bearish_break data structureLow structureLowIndex i st = Some st'
    ∧ short_boxes st'
      = short_boxes st
        ++ [add_order_block data (lastUpIndex st) (lastHigh st)
              (lastUpLow st) "rgba(255,0,0,0.9)"].
Proof.
  intros Hlo Hsl Hk Hlt Hrecent. unfold bearish_break.
  rewrite Hlo, Hsl, Hk. simpl.
  rewrite !bool_decide_eq_true_2 by done. simpl. by eexists.
Qed.

End NoBullish.

(** * The claims *)

(** C1.  The removal pass of lines 102-110 skips a zone.  On
    [two_zone_series] with window 1, two short zones are active when bar 4
    is processed, with tops 12 and 11, both strictly below the close 13 of
    bar 4.  The pass removes the first, and the iterator then steps over
    the second, which has moved into the freed place: after bar 4 the zone
    with top 11 is still active. *)
Theorem short_pass_skips_zone :
  ∃ sl sli st4 st5,
    calculate_structure_low two_zone_series 1 = Some (sl, sli)
    ∧ scan two_zone_series sl sli 4 _init_variables = Some st4
    ∧ short_boxes st4
      = [ mkBox 0 12 9 4 "rgba(255,0,0,0.9)";
          mkBox 2 11 8 4 "rgba(255,0,0,0.9)" ]
    ∧ Close <$> two_zone_series !! 4%nat = Some 13
    ∧ process_bar two_zone_series sl sli st4 4 = Some st5
    ∧ short_boxes st5 = [ mkBox 2 11 8 4 "rgba(255,0,0,0.9)" ].
Proof. do 4 eexists. vm_compute. repeat split. Qed.

(** C2.  [structureLowIndex[i]] is [i] itself, not the index of the window
    minimum.  On [dip_series] with window 2 the window of bar 2 has its
    minimum low 3 at bar 1, which is the index the specification asks for,
    while the program stores 2. *)
Theorem structureLowIndex_is_own_index :
  ∃ sl sli,
    calculate_structure_low dip_series 2 = Some (sl, sli)
    ∧ sl !! 2%nat = Some (Some 3)
    ∧ sli !! 2%nat = Some 2
    ∧ spec_structureLowIndex dip_series 2 2 = Some 1.
Proof. do 2 eexists. vm_compute. repeat split. Qed.

(** C3.  For a positive window [w], [calculate_structure_low] stores the
    series [structureLow_series]; its entry at a bar [i < w] is unavailable
    ([NaN]), and its entry at a bar [i >= w] is the minimum of the lows of
    the bars [i-w .. i-1]: the low of one of them, and not above the low of
    any of them. *)
Theorem structureLow_window_minimum (data : list Candle) (w : nat) :
  (0 < w)%nat →
  (∀ sl sli, calculate_structure_low data w = Some (sl, sli) →
     sl = structureLow_series data w)
  ∧ ∀ i : nat, (i < length data)%nat →
      ((i < w)%nat → structureLow_series data w !! i = Some None)
      ∧ ((w ≤ i)%nat →
         ∃ m, structureLow_series data w !! i = Some (Some m)
           ∧ (∃ (j : nat) c,
                (i - w ≤ j ≤ i - 1)%nat ∧ data !! j = Some c ∧ Low c = m)
           ∧ (∀ (j : nat) c,
                (i - w ≤ j ≤ i - 1)%nat → data !! j = Some c → m ≤ Low c)).
Proof.
  intros Hw. split.
  { intros sl sli H. by apply calculate_structure_low_Some in H as [-> _]. }
  intros i Hi. unfold structureLow_series. split; intros Hiw.
  - apply shift1_rolling_early; [done|by rewrite length_fmap|done].
  - rewrite shift1_rolling_late; [|done|by rewrite length_fmap|done].
    destruct (agg_min_is_Some (take w (drop (i - w) (Low <$> data))))
      as [m Hm].
    { intros E. apply (f_equal length) in E.
      rewrite length_take, length_drop, length_fmap in E. simpl in E. lia. }
    exists m. rewrite Hm. split; [done|].
    apply agg_min_spec in Hm as [Hin Hmin]. split.
    + apply elem_of_window in Hin as (j & Hj & Hlook).
      rewrite list_lookup_fmap in Hlook.
      apply fmap_Some in Hlook as (c & Hc & ->).
      exists j, c. split; [lia|done].
    + intros j c Hj Hc. apply Hmin. apply elem_of_window.
      exists j. split; [lia|]. by rewrite list_lookup_fmap, Hc.
Qed.

Lemma structureLow_window_minimum_witness :
  (∀ sl sli, calculate_structure_low dip_series 2 = Some (sl, sli) →
     sl = structureLow_series dip_series 2)
  ∧ ∀ i : nat, (i < length dip_series)%nat →
      ((i < 2)%nat → structureLow_series dip_series 2 !! i = Some None)
      ∧ ((2 ≤ i)%nat →
         ∃ m, structureLow_series dip_series 2 !! i = Some (Some m)
           ∧ (∃ (j : nat) c,
                (i - 2 ≤ j ≤ i - 1)%nat ∧ dip_series !! j = Some c
                ∧ Low c = m)
           ∧ (∀ (j : nat) c,
                (i - 2 ≤ j ≤ i - 1)%nat → dip_series !! j = Some c →
                m ≤ Low c)).
Proof. apply (structureLow_window_minimum dip_series 2). lia. Defined.

(** C4.  If every bar of the series has its high at or above its low, then
    at every bar [k] of the scan, right after the bearish-break step that
    may emit a short zone, every short zone on the list, the one just
    emitted included, has its top at or above its bottom. *)
Theorem short_zone_top_above_bottom (data : list Candle)
    (structureLow : list (option Z)) (structureLowIndex : list Z)
    (k : nat) (st st1 : State) :
  (∀ c, c ∈ data → Low c ≤ High c) →
  scan data structureLow structureLowIndex k _init_variables = Some st →
  bearish_break data structureLow structureLowIndex k st = Some st1 →
  Forall (λ b, b_bottom b ≤ b_top b) (short_boxes st1).
Proof.
  intros Hwf Hscan Hbreak.
  apply (scan_upright data _ _ Hwf) in Hscan.
  by apply (bearish_break_upright _ _ _ _ _ _ Hbreak) in Hscan as [_ H].
Qed.

Lemma short_zone_top_above_bottom_witness :
  Forall (λ b, b_bottom b ≤ b_top b)
    (short_boxes
       (default _init_variables
          (scan two_zone_series (structureLow_series two_zone_series 1)
             [0; 1; 2; 3; 4] 3 _init_variables
           ≫= bearish_break two_zone_series
                (structureLow_series two_zone_series 1)
                [0; 1; 2; 3; 4] 3))).
Proof.
  eapply (short_zone_top_above_bottom two_zone_series
            (structureLow_series two_zone_series 1) [0; 1; 2; 3; 4] 3).
  - apply Forall_forall. apply (bool_decide_unpack _). vm_compute. exact I.
  - vm_compute. reflexivity.
  - vm_compute. reflexivity.
Defined.

(** C5.  The list of break lines only grows: the lines present after [j]
    bars are still there after any [k >= j] bars, in the same places and
    unchanged, so their number never goes down. *)
Theorem bos_lines_append_only (data : list Candle)
    (structureLow : list (option Z)) (structureLowIndex : list Z)
    (j k : nat) (st_j st_k : State) :
  (j ≤ k)%nat →
  scan data structureLow structureLowIndex j _init_variables = Some st_j →
  scan data structureLow structureLowIndex k _init_variables = Some st_k →
  bos_lines st_j `prefix_of` bos_lines st_k
  ∧ (length (bos_lines st_j) ≤ length (bos_lines st_k))%nat.
Proof.
  intros Hjk Hj Hk.
  destruct (scan_bos_between _ _ _ _ _ _ _ Hjk Hj Hk) as (l & E & _).
  assert (bos_lines st_j `prefix_of` bos_lines st_k) as Hpre
    by by exists l.
  split; [done|]. by apply prefix_length.
Qed.

Lemma bos_lines_append_only_witness :
  [ mkBox 1 9 9 4 "red"; mkBox 3 8 8 4 "red" ]
    `prefix_of`
  [ mkBox 1 9 9 4 "red"; mkBox 3 8 8 4 "red"; mkBox 0 12 12 4 "green" ]
  ∧ (2 ≤ 3)%nat.
Proof.
  apply (bos_lines_append_only two_zone_series
           (structureLow_series two_zone_series 1) [0; 1; 2; 3; 4] 4 5
           (default _init_variables
              (scan two_zone_series (structureLow_series two_zone_series 1)
                 [0; 1; 2; 3; 4] 4 _init_variables))
           (default _init_variables
              (scan two_zone_series (structureLow_series two_zone_series 1)
                 [0; 1; 2; 3; 4] 5 _init_variables))).
  - lia.
  - vm_compute. reflexivity.
  - vm_compute. reflexivity.
Defined.

(** C6.  On a series exactly as long as the window no structural low is
    ever available, and the scan returns with no short zone, no long zone
    and no break line. *)
Theorem series_of_window_length_draws_nothing (data : list Candle) :
  structureLow_series data (length data) = replicate (length data) None
  ∧ ∃ st, engine data (length data) = Some st
      ∧ short_boxes st = [] ∧ long_boxes st = [] ∧ bos_lines st = [].
Proof.
  assert (∀ i : nat, (i < length data)%nat →
            structureLow_series data (length data) !! i = Some None) as Hnan.
  { intros i Hi. unfold structureLow_series.
    apply shift1_rolling_early; [lia|by rewrite length_fmap|done]. }
  split.
  - apply list_eq. intros i. destruct (decide (i < length data)%nat) as [Hi|Hi].
    + rewrite Hnan by done. symmetry. by apply lookup_replicate_2.
    + rewrite !lookup_ge_None_2; [done| |].
      * rewrite length_replicate. lia.
      * rewrite length_structureLow_series. lia.
  - destruct (engine_returns data (length data)) as [st Hst]; [done|].
    exists st. split; [done|]. unfold engine in Hst.
    rewrite calculate_structure_low_returns in Hst by done. simpl in Hst.
    by apply scan_nothing_drawn in Hst.
Qed.

(** C7.  On a series of [n >= 2] bars [calculate_pdh_pdl] returns the high
    and the low of bar [n-2]; on a shorter series it raises. *)
Theorem calculate_pdh_pdl_second_to_last (data : list Candle) :
  ((2 ≤ length data)%nat →
     ∃ c, data !! (length data - 2)%nat = Some c
          ∧ calculate_pdh_pdl data = Some (High c, Low c))
  ∧ ((length data < 2)%nat → calculate_pdh_pdl data = None).
Proof.
  unfold calculate_pdh_pdl, getitem. rewrite !length_fmap. simpl.
  split; intros Hn.
  - destruct (lookup_lt_is_Some_2 data (length data - 2)) as [c Hc]; [lia|].
    exists c. split; [done|].
    rewrite !bool_decide_eq_true_2 by lia.
    replace (Z.to_nat (-2 + Z.of_nat (length data)))
      with (length data - 2)%nat by lia.
    by rewrite !list_lookup_fmap, Hc.
  - by rewrite bool_decide_eq_false_2 by lia.
Qed.

Lemma calculate_pdh_pdl_second_to_last_witness :
  (∃ c, two_zone_series !! 3%nat = Some c
        ∧ calculate_pdh_pdl two_zone_series = Some (High c, Low c))
  ∧ calculate_pdh_pdl [ mkCandle 0 10 12 9 11 ] = None.
Proof.
  split.
  - apply (calculate_pdh_pdl_second_to_last two_zone_series). simpl. lia.
  - apply (calculate_pdh_pdl_second_to_last [ mkCandle 0 10 12 9 11 ]).
    simpl. lia.
Defined.

(** C8, as the specification has it, fails: [malformed_series] has a bar
    with its high below its low and time stamps that run backwards, yet
    nothing rejects it; the scan runs and draws from it a short zone with
    top 8 below bottom 9. *)
Lemma malformed_series_is_scanned :
  ¬ (∀ (data : list Candle) (w : nat),
       (0 < w)%nat → malformed data = true → engine data w = None).
Proof.
  intros Hreject.
  specialize (Hreject malformed_series 1%nat).
  assert (∃ st, engine malformed_series 1 = Some st
                ∧ short_boxes st = [ mkBox 0 8 9 1 "rgba(255,0,0,0.9)" ])
    as (st & Hst & _).
  { eexists. vm_compute. split; reflexivity. }
  rewrite Hreject in Hst; [done|lia|]. vm_compute. reflexivity.
Qed.

(** C8, amended.  The program validates no candle: for a positive window no
    longer than the series, [calculate_structure_low] and
    [process_order_blocks] run to the end and return the drawn state,
    whatever the highs, lows and time stamps of the bars are. *)
Theorem engine_scans_any_series (data : list Candle) (w : nat) :
  (0 < w)%nat → (w ≤ length data)%nat → ∃ st, engine data w = Some st.
Proof. intros _ Hw. by apply engine_returns. Qed.

Lemma engine_scans_any_series_witness :
  malformed malformed_series = true
  ∧ ∃ st, engine malformed_series 1 = Some st.
Proof.
  split; [vm_compute; reflexivity|].
  apply (engine_scans_any_series malformed_series 1); simpl; lia.
Defined.

(** C9.  Every break line on the list, after any number of bars, has its
    right edge at the last bar of the series, [len(data) - 1], and its top
    equal to its bottom. *)
Theorem bos_lines_horizontal_to_end (data : list Candle)
    (structureLow : list (option Z)) (structureLowIndex : list Z)
    (k : nat) (st : State) :
  scan data structureLow structureLowIndex k _init_variables = Some st →
  Forall (λ b, b_right b = Z.of_nat (length data) - 1
               ∧ b_top b = b_bottom b) (bos_lines st).
Proof.
  intros Hk.
  destruct (scan_bos_between data structureLow structureLowIndex 0 k
              _init_variables st) as (l & E & Hl); [lia|done|done|].
  by rewrite E.
Qed.

Lemma bos_lines_horizontal_to_end_witness :
  Forall (λ b, b_right b = Z.of_nat (length two_zone_series) - 1
               ∧ b_top b = b_bottom b)
    [ mkBox 1 9 9 4 "red"; mkBox 3 8 8 4 "red"; mkBox 0 12 12 4 "green" ].
Proof.
  apply (bos_lines_horizontal_to_end two_zone_series
           (structureLow_series two_zone_series 1) [0; 1; 2; 3; 4] 5
           (default _init_variables
              (scan two_zone_series (structureLow_series two_zone_series 1)
                 [0; 1; 2; 3; 4] 5 _init_variables))).
  vm_compute. reflexivity.
Defined.
Theorem short_zone_from_initial_tracker :
  ∃ sl sli st st1 zone,
    calculate_structure_low falling_series 15 = Some (sl, sli)
    ∧ scan falling_series sl sli 15 _init_variables = Some st
    ∧ Forall (λ c, ¬ Close c > Open c) (take 15 falling_series)
    ∧ Low <$> falling_series !! 15%nat = Some 80
    ∧ sl !! 15%nat = Some (Some 90)
    ∧ lastUpIndex st = 0 ∧ lastUpLow st = 0
    ∧ bearish_break falling_series sl sli 15 st = Some st1
    ∧ short_boxes st1 = short_boxes st ++ [zone]
    ∧ b_left zone = 0 ∧ b_bottom zone = 0.
Proof.
  assert (Forall (λ c, ¬ Close c > Open c) (take 15 falling_series)) as Hnb.
  { apply (bool_decide_unpack _). vm_compute. exact I. }
  assert (length falling_series = 16%nat) as Hlen by (vm_compute; reflexivity).
  pose proof (calculate_structure_low_returns falling_series 15) as Hcalc.
  set (sl := structureLow_series falling_series 15) in *.
  set (sli := Z.of_nat <$> seq 0 (length falling_series)) in *.
  destruct (scan_returns falling_series sl sli) with (k := 15%nat)
    (st := _init_variables) as [st Hst].
  { apply length_structureLow_series. }
  { unfold sli. by rewrite length_fmap, length_seq. }
  { rewrite Hlen. lia. }
  destruct (scan_not_bullish falling_series sl sli 15 st Hnb Hst)
    as [Hidx Hlow].
  assert (Low <$> falling_series !! 15%nat = Some 80) as Hlo
    by (vm_compute; reflexivity).
  assert (sl !! 15%nat = Some (Some 90)) as Hsl by (vm_compute; reflexivity).
  assert (sli !! 15%nat = Some 15) as Hsli by (vm_compute; reflexivity).
  destruct (bearish_break_emits falling_series sl sli 15 st 80 90 15
              Hlo Hsl Hsli) as (st1 & Hbreak & Hshort).
  { lia. }
  { rewrite Hidx. lia. }
  exists sl, sli, st, st1.
  exists (add_order_block falling_series (lastUpIndex st) (lastHigh st)
            (lastUpLow st) "rgba(255,0,0,0.9)").
  split. { apply Hcalc. rewrite Hlen. lia. }
  split. { exact Hst. }
  split. { exact Hnb. }
  split. { exact Hlo. }
  split. { exact Hsl. }
  split. { exact Hidx. }
  split. { exact Hlow. }
  split. { exact Hbreak. }
  split. { exact Hshort. }
  split. { exact Hidx. }
  exact Hlow.
Qed.

(** * Further properties of the code *)

(** ** Structure extractor *)

(** X1.  Whenever [structureLowIndexPointer] returns, it returns
    [list(range(len(data)))]: one entry per bar, the entry of bar [i]
    being [i], whatever the prices and the window are. *)
Theorem structureLowIndexPointer_is_range (data : list Candle) (w : nat)
    (sli : list Z) :
  structureLowIndexPointer data w = Some sli →
  length sli = length data
  ∧ ∀ i : nat, (i < length data)%nat → sli !! i = Some (Z.of_nat i).
Proof.
  intros H. apply structureLowIndexPointer_range in H as ->.
  split; [by rewrite length_fmap, length_seq|].
  intros i Hi. rewrite list_lookup_fmap, lookup_seq_lt by done. done.
Qed.

Lemma structureLowIndexPointer_is_range_witness :
  length [0; 1; 2] = length dip_series
  ∧ ∀ i : nat, (i < length dip_series)%nat →
      [0; 1; 2] !! i = Some (Z.of_nat i).
Proof.
  apply (structureLowIndexPointer_is_range dip_series 2 [0; 1; 2]).
  vm_compute. reflexivity.
Defined.

(** X2.  For a positive window, [calculate_structure_low] raises exactly
    when the window is longer than the series and at least 2: the loop of
    [structureLowIndexPointer] then reads [data['Low'][i]] past the end.
    A window of 1 never raises, even on an empty series. *)
Theorem calculate_structure_low_raises_iff (data : list Candle) (w : nat) :
  (0 < w)%nat →
  calculate_structure_low data w = None
  ↔ (length data < w)%nat ∧ (2 ≤ w)%nat.
Proof.
  intros Hw. split.
  - intros Hnone.
    destruct (decide (w ≤ length data)%nat) as [Hle|Hgt].
    { by rewrite calculate_structure_low_returns in Hnone. }
    split; [lia|].
    destruct (decide (2 ≤ w)%nat) as [|Hsmall]; [done|].
    exfalso. assert (w = 1%nat) as -> by lia.
    unfold calculate_structure_low, structureLowIndexPointer in Hnone.
    simpl in Hnone. done.
  - intros [Hlen H2]. unfold calculate_structure_low.
    by rewrite structureLowIndexPointer_raises.
Qed.

Lemma calculate_structure_low_raises_iff_witness :
  calculate_structure_low dip_series 4 = None
  ↔ (length dip_series < 4)%nat ∧ (2 ≤ 4)%nat.
Proof. apply (calculate_structure_low_raises_iff dip_series 4). lia. Defined.

(** ** The first bars *)

Lemma bearish_break_nan data structureLow structureLowIndex (i : nat)
    st st' :
  structureLow !! i = Some None →
  bearish_break data structureLow structureLowIndex i st = Some st' →
  st' = st.
Proof.
  intros Hnan. unfold bearish_break. intros H.
  apply bind_Some in H as (lo & _ & H).
  rewrite Hnan in H. by injection H as <-.
Qed.

(** X3.  Nothing is drawn while the window is filling: after the first
    [k <= range_len] bars there is no short zone, no long zone and no
    break line, so the first break can only come at bar [range_len]. *)
Theorem nothing_drawn_before_window_full (data : list Candle) (w k : nat)
    (sl : list (option Z)) (sli : list Z) (st : State) :
  (0 < w)%nat → (k ≤ w)%nat →
  calculate_structure_low data w = Some (sl, sli) →
  scan data sl sli k _init_variables = Some st →
  short_boxes st = [] ∧ long_boxes st = [] ∧ bos_lines st = [].
Proof.
  intros Hw Hk Hcalc Hscan.
  apply calculate_structure_low_Some in Hcalc as [-> ->].
  apply (for_each_rel (preserves nothing_drawn)) in Hscan;
    [by apply Hscan|].
  intros i s s' Hi Hbar. apply elem_of_seq in Hi.
  pose proof (process_bar_lt _ _ _ _ _ _ Hbar) as Hlen.
  revert Hbar. apply process_bar_rel_at; try apply _.
  - intros t t' Ht. apply bearish_break_nan in Ht as ->; [done|].
    unfold structureLow_series.
    apply shift1_rolling_early; [done|by rewrite length_fmap|lia].
  - intros box t t' Hbox _ (Hshort & _). rewrite Hshort in Hbox.
    by apply elem_of_nil in Hbox.
  - intros box t t' Hbox _ (_ & Hlong & _). rewrite Hlong in Hbox.
    by apply elem_of_nil in Hbox.
  - unfold tracker_update. intros t t' Ht.
    apply bind_Some in Ht as (c & _ & [= <-]).
    intros Hnd. unfold nothing_drawn. by repeat case_bool_decide.
Qed.

Lemma nothing_drawn_before_window_full_witness :
  short_boxes
    (default _init_variables
       (scan falling_series (structureLow_series falling_series 15)
          (Z.of_nat <$> seq 0 16) 15 _init_variables)) = []
  ∧ long_boxes
      (default _init_variables
         (scan falling_series (structureLow_series falling_series 15)
            (Z.of_nat <$> seq 0 16) 15 _init_variables)) = []
  ∧ bos_lines
      (default _init_variables
         (scan falling_series (structureLow_series falling_series 15)
            (Z.of_nat <$> seq 0 16) 15 _init_variables)) = [].
Proof.
  apply (nothing_drawn_before_window_full falling_series 15 15
           (structureLow_series falling_series 15) (Z.of_nat <$> seq 0 16)).
  - lia.
  - lia.
  - vm_compute. reflexivity.
  - vm_compute. reflexivity.
Defined.

(** ** Long zones *)

Section LongZones.

Variable data : list Candle.
Variable structureLow : list (option Z).
Variable structureLowIndex : list Z.
Hypothesis high_above_low : ∀ c, c ∈ data → Low c ≤ High c.

Lemma bearish_break_long_upright (i : nat) st st' :
  bearish_break data structureLow structureLowIndex i st = Some st' →
  preserves long_upright st st'.
Proof.
  unfold bearish_break. intros H Hup.
  apply bind_Some in H as (lo & _ & H).
  apply bind_Some in H as ([v|] & _ & H); [|by injection H as <-].
  case_bool_decide; [|by injection H as <-].
  apply bind_Some in H as (st1 & H1 & [= <-]).
  case_bool_decide; [|by injection H1 as <-].
  by apply bind_Some in H1 as (k & _ & [= <-]).
Qed.

Lemma short_body_long_upright (i : nat) box st st' :
  short_body data i box st = Some st' → preserves long_upright st st'.
Proof.
  unfold short_body. intros H Hup. pose proof Hup as [Htr Hall].
  apply bind_Some in H as (cl & _ & H).
  case_bool_decide; [|by injection H as <-].
  apply bind_Some in H as (l & _ & H).
  destruct (_ && _); injection H as <-; [|done].
  split; simpl; [done|]. apply Forall_app. split; [done|].
  by apply Forall_singleton.
Qed.

Lemma long_body_long_upright (i : nat) box st st' :
  long_body data i box st = Some st' → preserves long_upright st st'.
Proof.
  unfold long_body. intros H Hup. pose proof Hup as [Htr Hall].
  apply bind_Some in H as (cl & _ & H).
  case_bool_decide; [|by injection H as <-].
  apply bind_Some in H as (l & Hl & [= <-]).
  split; simpl; [done|]. rewrite Forall_forall in Hall.
  apply Forall_forall. intros x Hx. apply Hall.
  by eapply list_remove_elem_of.
Qed.

Lemma tracker_update_long_upright (i : nat) st st' :
  tracker_update data i st = Some st' → preserves long_upright st st'.
Proof.
  unfold tracker_update. intros H [Htr Hall].
  apply bind_Some in H as (c & Hc & [= <-]).
  apply list_elem_of_lookup_2, high_above_low in Hc.
  split; repeat case_bool_decide; simpl; try done; lia.
Qed.

Lemma scan_long_upright (k : nat) st :
  scan data structureLow structureLowIndex k _init_variables = Some st →
  long_upright st.
Proof.
  intros H. eapply (scan_rel _ _ _ (preserves long_upright)) in H.
  - apply H. split; simpl; [done|]. apply Forall_nil_2.
  - apply bearish_break_long_upright.
  - intros i box s s' _. apply short_body_long_upright.
  - intros i box s s' _. apply long_body_long_upright.
  - apply tracker_update_long_upright.
Qed.

End LongZones.

(** X4.  If every bar has its high at or above its low, then at every bar
    [k], right after the pass over the short zones that may emit a long
    zone, every long zone on the list, the new one included, has its top
    (the last bearish high) at or above its bottom (the running low). *)
Theorem long_zone_top_above_bottom (data : list Candle)
    (structureLow : list (option Z)) (structureLowIndex : list Z)
    (k : nat) (st st1 st2 : State) :
  (∀ c, c ∈ data → Low c ≤ High c) →
  scan data structureLow structureLowIndex k _init_variables = Some st →
  bearish_break data structureLow structureLowIndex k st = Some st1 →
  short_pass data k st1 = Some st2 →
  Forall (λ b, b_bottom b ≤ b_top b) (long_boxes st2).
Proof.
  intros Hwf Hscan Hbreak Hpass.
  apply (scan_long_upright data _ _ Hwf) in Hscan.
  apply (bearish_break_long_upright _ _ _ _ _ _ Hbreak) in Hscan.
  unfold short_pass in Hpass. case_bool_decide.
  - apply (short_loop_rel data (preserves long_upright)) in Hpass.
    + by apply Hpass in Hscan as [_ H'].
    + intros box s s' _. apply short_body_long_upright.
  - injection Hpass as <-. by destruct Hscan.
Qed.

Lemma long_zone_top_above_bottom_witness :
  Forall (λ b, b_bottom b ≤ b_top b)
    (long_boxes
       (default _init_variables
          (scan two_zone_series (structureLow_series two_zone_series 1)
             [0; 1; 2; 3; 4] 4 _init_variables
           ≫= short_pass two_zone_series 4))).
Proof.
  apply (long_zone_top_above_bottom two_zone_series
           (structureLow_series two_zone_series 1) [0; 1; 2; 3; 4] 4
           (default _init_variables
              (scan two_zone_series (structureLow_series two_zone_series 1)
                 [0; 1; 2; 3; 4] 4 _init_variables))
           (default _init_variables
              (scan two_zone_series (structureLow_series two_zone_series 1)
                 [0; 1; 2; 3; 4] 4 _init_variables))
           (default _init_variables
              (scan two_zone_series (structureLow_series two_zone_series 1)
                 [0; 1; 2; 3; 4] 4 _init_variables
               ≫= short_pass two_zone_series 4))).
  - apply Forall_forall. apply (bool_decide_unpack _). vm_compute. exact I.
  - vm_compute. reflexivity.
  - vm_compute. reflexivity.
  - vm_compute. reflexivity.
Defined.

(** ** Where the boxes lie *)

Section Frame.

Variable data : list Candle.
Variable structureLow : list (option Z).
Variable structureLowIndex : list Z.
Hypothesis index_in_frame : ∀ (i : nat) k,
  structureLowIndex !! i = Some k → 0 ≤ k ≤ Z.of_nat (length data) - 1.

Lemma bearish_break_frame (i : nat) st st' :
  bearish_break data structureLow structureLowIndex i st = Some st' →
  preserves (frame_ok data) st st'.
Proof.
  unfold bearish_break. intros H Hok.
  pose proof Hok as (Hup & Hdown & Hs & Hl & Hb).
  apply bind_Some in H as (lo & Hlo & H).
  apply fmap_Some in Hlo as (c & Hc & _). apply lookup_lt_Some in Hc.
  apply bind_Some in H as ([v|] & _ & H); [|by injection H as <-].
  case_bool_decide; [|by injection H as <-].
  apply bind_Some in H as (st1 & H1 & [= <-]).
  case_bool_decide; [|by injection H1 as <-].
  apply bind_Some in H1 as (k & Hk & [= <-]).
  apply index_in_frame in Hk.
  unfold frame_ok. simpl. repeat split; try done; try lia.
  - apply Forall_app. split; [done|]. apply Forall_singleton.
    unfold in_frame. simpl. lia.
  - apply Forall_app. split; [done|]. apply Forall_singleton.
    unfold in_frame. simpl. lia.
Qed.

Lemma short_body_frame (i : nat) box st st' :
  box ∈ short_boxes st →
  short_body data i box st = Some st' → preserves (frame_ok data) st st'.
Proof.
  unfold short_body. intros Hbox H Hok.
  pose proof Hok as (Hup & Hdown & Hs & Hl & Hb).
  apply bind_Some in H as (cl & Hcl & H).
  apply fmap_Some in Hcl as (c & Hc & _). apply lookup_lt_Some in Hc.
  case_bool_decide; [|by injection H as <-].
  apply bind_Some in H as (l & Hrem & H).
  assert (Forall (in_frame data) l) as Hl'.
  { rewrite Forall_forall in Hs. apply Forall_forall. intros x Hx.
    apply Hs. by eapply list_remove_elem_of. }
  rewrite Forall_forall in Hs. apply Hs in Hbox as [Hbl Hbr].
  destruct (_ && _); injection H as <-;
    unfold frame_ok; simpl; repeat split; try done; try lia.
  - apply Forall_app. split; [done|]. apply Forall_singleton.
    unfold in_frame. simpl. lia.
  - apply Forall_app. split; [done|]. apply Forall_singleton.
    unfold in_frame. simpl. lia.
Qed.

Lemma long_body_frame (i : nat) box st st' :
  long_body data i box st = Some st' → preserves (frame_ok data) st st'.
Proof.
  unfold long_body. intros H Hok.
  pose proof Hok as (Hup & Hdown & Hs & Hl & Hb).
  apply bind_Some in H as (cl & _ & H).
  case_bool_decide; [|by injection H as <-].
  apply bind_Some in H as (l & Hrem & [= <-]).
  unfold frame_ok. simpl. repeat split; try done; try lia.
  rewrite Forall_forall in Hl. apply Forall_forall. intros x Hx.
  apply Hl. by eapply list_remove_elem_of.
Qed.

Lemma tracker_update_frame (i : nat) st st' :
  tracker_update data i st = Some st' → preserves (frame_ok data) st st'.
Proof.
  unfold tracker_update. intros H (Hup & Hdown & Hs & Hl & Hb).
  apply bind_Some in H as (c & Hc & [= <-]). apply lookup_lt_Some in Hc.
  unfold frame_ok.
  repeat case_bool_decide; simpl; repeat split; try done; lia.
Qed.

Lemma scan_frame (k : nat) st :
  scan data structureLow structureLowIndex k _init_variables = Some st →
  frame_ok data st.
Proof.
  intros H. eapply (scan_rel _ _ _ (preserves (frame_ok data))) in H.
  - apply H. unfold frame_ok. simpl.
    repeat split; try apply Forall_nil_2; lia.
  - apply bearish_break_frame.
  - apply short_body_frame.
  - intros i box s s' _. apply long_body_frame.
  - apply tracker_update_frame.
Qed.

End Frame.

Lemma range_in_frame (data : list Candle) (i : nat) k :
  (Z.of_nat <$> seq 0 (length data)) !! i = Some k →
  0 ≤ k ≤ Z.of_nat (length data) - 1.
Proof.
  intros H. rewrite list_lookup_fmap in H.
  apply fmap_Some in H as (j & Hj & ->).
  apply lookup_seq in Hj as [-> Hlt]. lia.
Qed.

(** X5.  After any number of bars of a run set up by
    [calculate_structure_low], every short zone, long zone and break line
    on the lists starts at a bar of the series ([0 <= left]) and ends at
    its last bar ([left <= right = len(data) - 1]). *)
Theorem drawn_boxes_in_frame (data : list Candle) (w k : nat)
    (sl : list (option Z)) (sli : list Z) (st : State) :
  calculate_structure_low data w = Some (sl, sli) →
  scan data sl sli k _init_variables = Some st →
  Forall (λ b, 0 ≤ b_left b ≤ b_right b
               ∧ b_right b = Z.of_nat (length data) - 1)
    (short_boxes st ++ long_boxes st ++ bos_lines st).
Proof.
  intros Hcalc Hscan.
  apply calculate_structure_low_Some in Hcalc as [-> ->].
  apply scan_frame in Hscan as (_ & _ & Hs & Hl & Hb).
  - rewrite !Forall_app. done.
  - apply range_in_frame.
Qed.

Lemma drawn_boxes_in_frame_witness :
  Forall (λ b, 0 ≤ b_left b ≤ b_right b
               ∧ b_right b = Z.of_nat (length two_zone_series) - 1)
    (short_boxes
       (default _init_variables
          (scan two_zone_series (structureLow_series two_zone_series 1)
             [0; 1; 2; 3; 4] 5 _init_variables))
     ++ long_boxes
          (default _init_variables
             (scan two_zone_series (structureLow_series two_zone_series 1)
                [0; 1; 2; 3; 4] 5 _init_variables))
     ++ bos_lines
          (default _init_variables
             (scan two_zone_series (structureLow_series two_zone_series 1)
                [0; 1; 2; 3; 4] 5 _init_variables))).
Proof.
  apply (drawn_boxes_in_frame two_zone_series 1 5
           (structureLow_series two_zone_series 1) [0; 1; 2; 3; 4]).
  - vm_compute. reflexivity.
  - vm_compute. reflexivity.
Defined.

(** ** Drawing *)

Lemma getitem_in_range {A : Type} (xs : list A) (k : Z) :
  0 ≤ k < Z.of_nat (length xs) → getitem xs k = xs !! Z.to_nat k.
Proof.
  intros Hk. unfold getitem. cbv zeta.
  rewrite (bool_decide_eq_false_2 (k < 0)) by lia.
  by rewrite bool_decide_eq_true_2 by lia.
Qed.

Lemma getitem_from_end {A : Type} (xs : list A) (k : Z) :
  - Z.of_nat (length xs) ≤ k < 0 →
  getitem xs k = xs !! Z.to_nat (k + Z.of_nat (length xs)).
Proof.
  intros Hk. unfold getitem. cbv zeta.
  rewrite (bool_decide_eq_true_2 (k < 0)) by lia.
  by rewrite bool_decide_eq_true_2 by lia.
Qed.

Lemma getitem_out_of_range {A : Type} (xs : list A) (k : Z) :
  k < - Z.of_nat (length xs) ∨ Z.of_nat (length xs) ≤ k →
  getitem xs k = None.
Proof.
  intros Hk. unfold getitem. cbv zeta.
  destruct (bool_decide (k < 0)) eqn:E.
  - apply bool_decide_eq_true_1 in E.
    by rewrite bool_decide_eq_false_2 by lia.
  - apply bool_decide_eq_false_1 in E.
    by rewrite bool_decide_eq_false_2 by lia.
Qed.

Lemma timestamp_lookup (data : list Candle) (k : Z) :
  0 ≤ k ≤ Z.of_nat (length data) - 1 →
  ∃ c, data !! Z.to_nat k = Some c
       ∧ getitem (timestamp <$> data) k = Some (timestamp c).
Proof.
  intros Hk.
  destruct (lookup_lt_is_Some_2 data (Z.to_nat k)) as [c Hc]; [lia|].
  exists c. split; [done|].
  rewrite getitem_in_range by (rewrite length_fmap; lia).
  by rewrite list_lookup_fmap, Hc.
Qed.

Lemma zone_trace_in_frame (data : list Candle) (b : Box) :
  in_frame data b →
  ∃ cl cr, data !! Z.to_nat (b_left b) = Some cl
    ∧ data !! (length data - 1)%nat = Some cr
    ∧ zone_trace data b
      = Some (Scatter
                [timestamp cl; timestamp cr; timestamp cr; timestamp cl;
                 timestamp cl]
                [b_top b; b_top b; b_bottom b; b_bottom b; b_top b]
                (Some "toself") (Some (b_color b)) (b_color b) None
                "lines" None (Some false)).
Proof.
  intros [Hleft Hright].
  destruct (timestamp_lookup data (b_left b)) as (cl & Hcl & Hxl); [lia|].
  destruct (timestamp_lookup data (Z.of_nat (length data) - 1))
    as (cr & Hcr & Hxr); [lia|].
  exists cl, cr. split; [done|]. split.
  { rewrite <- Hcr. f_equal. lia. }
  unfold zone_trace. rewrite Hxl. simpl.
  rewrite Hright, Z.min_id, Hxr. done.
Qed.

Lemma line_trace_in_frame (data : list Candle) (b : Box) :
  in_frame data b → is_Some (line_trace data b).
Proof.
  intros [Hleft Hright].
  destruct (timestamp_lookup data (b_left b)) as (cl & Hcl & Hxl); [lia|].
  destruct (timestamp_lookup data (Z.of_nat (length data) - 1))
    as (cr & Hcr & Hxr); [lia|].
  unfold line_trace. rewrite Hxl. simpl.
  rewrite Hright, Z.min_id, Hxr. by eexists.
Qed.

Lemma level_trace_returns (data : list Candle) level color name :
  (1 ≤ length data)%nat → is_Some (level_trace data level color name).
Proof.
  intros Hlen. unfold level_trace.
  destruct (timestamp_lookup data 0) as (c0 & _ & ->); [lia|]. simpl.
  rewrite getitem_from_end by (rewrite length_fmap; lia).
  destruct (lookup_lt_is_Some_2 (timestamp <$> data)
              (Z.to_nat (-1 + Z.of_nat (length (timestamp <$> data)))))
    as [x ->]; [rewrite length_fmap; lia|].
  by eexists.
Qed.

Lemma level_trace_empty level color name :
  level_trace [] level color name = None.
Proof. done. Qed.

Lemma visualize_frame_ok ticker (data : list Candle) st pdh pdl :
  (1 ≤ length data)%nat → frame_ok data st →
  ∃ fig, visualize ticker data st pdh pdl = Some fig
    ∧ length (traces fig)
      = (3 + length (short_boxes st) + length (long_boxes st)
         + length (bos_lines st))%nat.
Proof.
  intros Hlen (_ & _ & Hs & Hl & Hb). unfold visualize.
  destruct (mapM_is_Some_2 (zone_trace data) (short_boxes st))
    as [shorts Hshorts].
  { eapply Forall_impl; [exact Hs|]. intros b Hbf.
    destruct (zone_trace_in_frame data b Hbf) as (? & ? & _ & _ & Hz).
    unfold compose. rewrite Hz. by eexists. }
  destruct (mapM_is_Some_2 (zone_trace data) (long_boxes st))
    as [longs Hlongs].
  { eapply Forall_impl; [exact Hl|]. intros b Hbf.
    destruct (zone_trace_in_frame data b Hbf) as (? & ? & _ & _ & Hz).
    unfold compose. rewrite Hz. by eexists. }
  destruct (mapM_is_Some_2 (line_trace data) (bos_lines st))
    as [lines Hlines].
  { eapply Forall_impl; [exact Hb|]. intros b Hbf.
    by apply line_trace_in_frame. }
  destruct (level_trace_returns data pdh "blue" "PDH" Hlen) as [hl Hhl].
  destruct (level_trace_returns data pdl "orange" "PDL" Hlen) as [ll Hll].
  rewrite Hshorts, Hlongs, Hlines, Hhl, Hll. simpl.
  eexists. split; [done|]. simpl.
  rewrite !length_app. simpl.
  apply length_mapM in Hshorts, Hlongs, Hlines. lia.
Qed.

Lemma calculate_pdh_pdl_returns (data : list Candle) :
  (2 ≤ length data)%nat → is_Some (calculate_pdh_pdl data).
Proof.
  intros Hn. unfold calculate_pdh_pdl.
  rewrite !getitem_from_end by (rewrite length_fmap; lia).
  rewrite !length_fmap.
  destruct (lookup_lt_is_Some_2 data
              (Z.to_nat (-2 + Z.of_nat (length data)))) as [c Hc]; [lia|].
  rewrite !list_lookup_fmap, Hc. by eexists.
Qed.

Lemma calculate_pdh_pdl_raises (data : list Candle) :
  (length data < 2)%nat → calculate_pdh_pdl data = None.
Proof.
  intros Hn. unfold calculate_pdh_pdl.
  rewrite (getitem_out_of_range (High <$> data) (-2)); [done|].
  rewrite length_fmap. lia.
Qed.

Lemma engine_frame_ok (data : list Candle) (w : nat) st :
  engine data w = Some st → frame_ok data st.
Proof.
  unfold engine. intros H.
  apply bind_Some in H as ([sl sli] & Hcalc & Hscan).
  apply calculate_structure_low_Some in Hcalc as [-> ->].
  eapply scan_frame; [|exact Hscan]. apply range_in_frame.
Qed.

Lemma script_returns ticker (data : list Candle) (w : nat) :
  (w ≤ length data)%nat → (2 ≤ length data)%nat →
  ∃ st fig, engine data w = Some st
    ∧ script ticker data w = Some fig
    ∧ length (traces fig)
      = (3 + length (short_boxes st) + length (long_boxes st)
         + length (bos_lines st))%nat.
Proof.
  intros Hw Hn.
  destruct (engine_returns data w Hw) as [st Hst].
  destruct (calculate_pdh_pdl_returns data Hn) as [levels Hlevels].
  destruct (visualize_frame_ok ticker data st levels.1 levels.2)
    as (fig & Hfig & Hcount); [lia|by eapply engine_frame_ok|].
  exists st, fig. split; [done|]. split; [|done].
  unfold script. rewrite Hst. simpl. rewrite Hlevels. done.
Qed.

(** X6.  For a positive window the whole script (structure lows, scan,
    reference levels, figure) raises exactly in two cases: the window is at
    least 2 and longer than the series, or the series has fewer than 2
    bars.  In every other case it builds the figure; no zone or line the
    scan produced can make the drawing fail. *)
Theorem script_raises_iff (ticker : string) (data : list Candle) (w : nat) :
  (0 < w)%nat →
  script ticker data w = None
  ↔ ((length data < w)%nat ∧ (2 ≤ w)%nat) ∨ (length data < 2)%nat.
Proof.
  intros Hw. split.
  - intros Hnone.
    destruct (decide (length data < 2)%nat) as [|Hn]; [by right|].
    destruct (decide (w ≤ length data)%nat) as [Hle|Hgt].
    + destruct (script_returns ticker data w) as (st & fig & _ & Hfig & _);
        [done|lia|]. congruence.
    + left. lia.
  - intros [[Hlen H2]|Hn]; unfold script.
    + unfold engine, calculate_structure_low.
      by rewrite structureLowIndexPointer_raises.
    + destruct (engine data w); [|done]. simpl.
      by rewrite calculate_pdh_pdl_raises.
Qed.

Lemma script_raises_iff_witness :
  script "AAPL" dip_series 4 = None
  ↔ ((length dip_series < 4)%nat ∧ (2 ≤ 4)%nat)
    ∨ (length dip_series < 2)%nat.
Proof. apply (script_raises_iff "AAPL" dip_series 4). lia. Defined.

(** X7.  When the window is no longer than the series and the series has
    at least 2 bars, the figure holds the candlestick trace, one rectangle
    for each short and each long zone still active at the end of the scan,
    one segment for each break line, and the two level lines: three traces
    more than there are boxes. *)
Theorem figure_has_a_trace_per_box (ticker : string) (data : list Candle)
    (w : nat) :
  (w ≤ length data)%nat → (2 ≤ length data)%nat →
  ∃ st fig, engine data w = Some st
    ∧ script ticker data w = Some fig
    ∧ length (traces fig)
      = (3 + length (short_boxes st) + length (long_boxes st)
         + length (bos_lines st))%nat.
Proof. apply script_returns. Qed.

Lemma figure_has_a_trace_per_box_witness :
  ∃ st fig, engine two_zone_series 1 = Some st
    ∧ script "AAPL" two_zone_series 1 = Some fig
    ∧ length (traces fig)
      = (3 + length (short_boxes st) + length (long_boxes st)
         + length (bos_lines st))%nat.
Proof.
  apply (figure_has_a_trace_per_box "AAPL" two_zone_series 1); simpl; lia.
Defined.

(** X8.  Every zone the scan leaves on the short or long list is drawn as
    a closed rectangle between the time stamp of its anchor bar and the
    time stamp of the last bar of the series, from its top down to its
    bottom: the clamp of the right edge never moves it, and both look-ups
    into the index succeed. *)
Theorem zone_drawn_to_last_bar (data : list Candle) (w k : nat)
    (sl : list (option Z)) (sli : list Z) (st : State) (b : Box) :
  calculate_structure_low data w = Some (sl, sli) →
  scan data sl sli k _init_variables = Some st →
  b ∈ short_boxes st ++ long_boxes st →
  ∃ cl cr, data !! Z.to_nat (b_left b) = Some cl
    ∧ data !! (length data - 1)%nat = Some cr
    ∧ zone_trace data b
      = Some (Scatter
                [timestamp cl; timestamp cr; timestamp cr; timestamp cl;
                 timestamp cl]
                [b_top b; b_top b; b_bottom b; b_bottom b; b_top b]
                (Some "toself") (Some (b_color b)) (b_color b) None
                "lines" None (Some false)).
Proof.
  intros Hcalc Hscan Hb. apply zone_trace_in_frame.
  apply calculate_structure_low_Some in Hcalc as [-> ->].
  apply scan_frame in Hscan as (_ & _ & Hs & Hl & _);
    [|apply range_in_frame].
  rewrite Forall_forall in Hs. rewrite Forall_forall in Hl.
  apply elem_of_app in Hb as [Hb|Hb]; [by apply Hs|by apply Hl].
Qed.

Lemma zone_drawn_to_last_bar_witness :
  ∃ cl cr, two_zone_series !! Z.to_nat 2 = Some cl
    ∧ two_zone_series !! (length two_zone_series - 1)%nat = Some cr
    ∧ zone_trace two_zone_series (mkBox 2 11 8 4 "rgba(255,0,0,0.9)")
      = Some (Scatter
                [timestamp cl; timestamp cr; timestamp cr; timestamp cl;
                 timestamp cl]
                [11; 11; 8; 8; 11]
                (Some "toself") (Some "rgba(255,0,0,0.9)")
                "rgba(255,0,0,0.9)" None "lines" None (Some false)).
Proof.
  apply (zone_drawn_to_last_bar two_zone_series 1 5
           (structureLow_series two_zone_series 1) [0; 1; 2; 3; 4]
           (default _init_variables
              (scan two_zone_series (structureLow_series two_zone_series 1)
                 [0; 1; 2; 3; 4] 5 _init_variables))
           (mkBox 2 11 8 4 "rgba(255,0,0,0.9)")).
  - vm_compute. reflexivity.
  - vm_compute. reflexivity.
  - vm_compute. apply list_elem_of_here.
Defined.

(** ** What the removal passes keep *)

Lemma list_remove_filter (keep : Box → Prop)
    {keep_dec : ∀ b, Decision (keep b)} b l l' :
  ¬ keep b → list_remove b l = Some l' →
  filter keep l' = filter keep l ∧ l' `sublist_of` l.
Proof.
  intros Hb. revert l'. induction l as [|x r IH]; intros l'; simpl; [done|].
  destruct (decide (x = b)) as [->|Hne].
  - intros [= <-]. split; [by rewrite filter_cons_False|].
    by apply sublist_cons.
  - intros H. apply fmap_Some in H as (r' & Hr' & ->).
    destruct (IH r' Hr') as [Hf Hsub]. split.
    + rewrite !filter_cons. by rewrite Hf.
    + by apply sublist_skip.
Qed.

Section Kept.

Variable data : list Candle.
Variable keep : Box → Prop.
Context {keep_dec : ∀ b, Decision (keep b)}.

#[local] Instance short_kept_refl : Reflexive (short_kept keep).
Proof. intros st. by split. Qed.

#[local] Instance short_kept_trans : Transitive (short_kept keep).
Proof.
  intros s1 s2 s3 [E1 S1] [E2 S2]. split; [congruence|by etrans].
Qed.

#[local] Instance long_kept_refl : Reflexive (long_kept keep).
Proof. intros st. by split. Qed.

#[local] Instance long_kept_trans : Transitive (long_kept keep).
Proof.
  intros s1 s2 s3 [E1 S1] [E2 S2]. split; [congruence|by etrans].
Qed.

Lemma short_body_kept (i : nat) box st st' :
  (∀ cl, Close <$> data !! i = Some cl → cl > b_top box → ¬ keep box) →
  short_body data i box st = Some st' → short_kept keep st st'.
Proof.
  intros Hbroken. unfold short_body. intros H.
  apply bind_Some in H as (cl & Hcl & H).
  case_bool_decide as Hgt; [|by injection H as <-].
  apply bind_Some in H as (l & Hl & H).
  destruct (list_remove_filter keep box _ _ (Hbroken cl Hcl Hgt) Hl)
    as [Hf Hsub].
  by destruct (_ && _); injection H as <-.
Qed.

Lemma short_pass_kept (i : nat) st st' :
  (∀ cl box, Close <$> data !! i = Some cl → cl > b_top box → ¬ keep box) →
  short_pass data i st = Some st' → short_kept keep st st'.
Proof.
  intros Hbroken. unfold short_pass. case_bool_decide.
  - apply short_loop_rel; [apply _..|].
    intros box s s' _. apply short_body_kept. intros cl. by apply Hbroken.
  - by intros [= <-].
Qed.

Lemma long_body_kept (i : nat) box st st' :
  (∀ cl, Close <$> data !! i = Some cl → cl < b_bottom box → ¬ keep box) →
  long_body data i box st = Some st' → long_kept keep st st'.
Proof.
  intros Hbroken. unfold long_body. intros H.
  apply bind_Some in H as (cl & Hcl & H).
  case_bool_decide as Hlt; [|by injection H as <-].
  apply bind_Some in H as (l & Hl & [= <-]).
  by destruct (list_remove_filter keep box _ _ (Hbroken cl Hcl Hlt) Hl).
Qed.

Lemma long_pass_kept (i : nat) st st' :
  (∀ cl box, Close <$> data !! i = Some cl → cl < b_bottom box →
     ¬ keep box) →
  long_pass data i st = Some st' → long_kept keep st st'.
Proof.
  intros Hbroken. unfold long_pass. case_bool_decide.
  - apply long_loop_rel; [apply _..|].
    intros box s s' _. apply long_body_kept. intros cl. by apply Hbroken.
  - by intros [= <-].
Qed.

End Kept.

(** X9.  The pass over the short zones at a bar with close [cl] never
    removes a zone whose top is at or above [cl]: those zones are on the
    list afterwards exactly as before, in the same order, and the list
    afterwards holds nothing that was not on it before. *)
Theorem short_pass_keeps_unbroken_zones (data : list Candle) (i : nat)
    (cl : Z) (st st' : State) :
  Close <$> data !! i = Some cl →
  short_pass data i st = Some st' →
  filter (λ b, cl ≤ b_top b) (short_boxes st')
  = filter (λ b, cl ≤ b_top b) (short_boxes st)
  ∧ short_boxes st' `sublist_of` short_boxes st.
Proof.
  intros Hcl Hpass.
  apply (short_pass_kept data (λ b, cl ≤ b_top b)) in Hpass; [done|].
  intros cl' box Hcl'. rewrite Hcl in Hcl'. injection Hcl' as <-. lia.
Qed.

Lemma short_pass_keeps_unbroken_zones_witness :
  filter (λ b, 10 ≤ b_top b)
    (short_boxes
       (default _init_variables
          (short_pass two_zone_series 2
             (set_short_boxes
                [ mkBox 0 12 9 4 "a"; mkBox 1 9 8 4 "b"; mkBox 2 11 8 4 "c" ]
                _init_variables))))
  = filter (λ b, 10 ≤ b_top b)
      (short_boxes
         (set_short_boxes
            [ mkBox 0 12 9 4 "a"; mkBox 1 9 8 4 "b"; mkBox 2 11 8 4 "c" ]
            _init_variables))
  ∧ short_boxes
      (default _init_variables
         (short_pass two_zone_series 2
            (set_short_boxes
               [ mkBox 0 12 9 4 "a"; mkBox 1 9 8 4 "b"; mkBox 2 11 8 4 "c" ]
               _init_variables)))
    `sublist_of`
    short_boxes
      (set_short_boxes
         [ mkBox 0 12 9 4 "a"; mkBox 1 9 8 4 "b"; mkBox 2 11 8 4 "c" ]
         _init_variables).
Proof.
  apply (short_pass_keeps_unbroken_zones two_zone_series 2 10).
  - vm_compute. reflexivity.
  - vm_compute. reflexivity.
Defined.

(** X10.  The pass over the long zones at a bar with close [cl] never
    removes a zone whose bottom is at or below [cl]: those zones stay, in
    their order, and nothing is added to the list. *)
Theorem long_pass_keeps_unbroken_zones (data : list Candle) (i : nat)
    (cl : Z) (st st' : State) :
  Close <$> data !! i = Some cl →
  long_pass data i st = Some st' →
  filter (λ b, b_bottom b ≤ cl) (long_boxes st')
  = filter (λ b, b_bottom b ≤ cl) (long_boxes st)
  ∧ long_boxes st' `sublist_of` long_boxes st.
Proof.
  intros Hcl Hpass.
  apply (long_pass_kept data (λ b, b_bottom b ≤ cl)) in Hpass; [done|].
  intros cl' box Hcl'. rewrite Hcl in Hcl'. injection Hcl' as <-. lia.
Qed.

Lemma long_pass_keeps_unbroken_zones_witness :
  filter (λ b, b_bottom b ≤ 10)
    (long_boxes
       (default _init_variables
          (long_pass two_zone_series 2
             (set_long_boxes
                [ mkBox 0 12 9 4 "a"; mkBox 1 13 11 4 "b" ]
                _init_variables))))
  = filter (λ b, b_bottom b ≤ 10)
      (long_boxes
         (set_long_boxes
            [ mkBox 0 12 9 4 "a"; mkBox 1 13 11 4 "b" ] _init_variables))
  ∧ long_boxes
      (default _init_variables
         (long_pass two_zone_series 2
            (set_long_boxes
               [ mkBox 0 12 9 4 "a"; mkBox 1 13 11 4 "b" ]
               _init_variables)))
    `sublist_of`
    long_boxes
      (set_long_boxes
         [ mkBox 0 12 9 4 "a"; mkBox 1 13 11 4 "b" ] _init_variables).
Proof.
  apply (long_pass_keeps_unbroken_zones two_zone_series 2 10).
  - vm_compute. reflexivity.
  - vm_compute. reflexivity.
Defined.

(** ** The bullish flip *)

Lemma short_body_one_flip data (i : nat) longs lines box st st' :
  short_body data i box st = Some st' →
  preserves (one_flip i longs lines) st st'.
Proof.
  unfold short_body. intros H Hflip.
  apply bind_Some in H as (cl & _ & H).
  case_bool_decide; [|by injection H as <-].
  apply bind_Some in H as (l & _ & H).
  destruct (_ && _) eqn:Hguard; injection H as <-.
  - apply andb_true_iff in Hguard as [_ Hnew].
    apply bool_decide_eq_true_1 in Hnew. simpl in Hnew.
    destruct Hflip as [[Hl Hb]|(zone & line & _ & _ & _ & Hidx)]; [|lia].
    right. eexists _, _. simpl. rewrite Hl, Hb. done.
  - destruct Hflip as [[Hl Hb]|(zone & line & Hl & Hb & Hc & Hidx)].
    + by left.
    + right. by exists zone, line.
Qed.

Lemma short_pass_one_flip data (i : nat) st st' :
  short_pass data i st = Some st' →
  one_flip i (long_boxes st) (bos_lines st) st'.
Proof.
  unfold short_pass. case_bool_decide.
  - intros Hpass.
    apply (short_loop_rel data
             (preserves (one_flip i (long_boxes st) (bos_lines st))))
      in Hpass.
    + apply Hpass. by left.
    + intros box s s' _. apply short_body_one_flip.
  - intros [= <-]. by left.
Qed.

(** X11.  However many short zones a bar closes through, its pass over
    the short zones creates at most one long zone and at most one green
    break line: either both lists are as before, or each has exactly one
    new entry at its end and [lastLongIndex] is the bar's index. *)
Theorem short_pass_flips_at_most_once (data : list Candle) (i : nat)
    (st st' : State) :
  short_pass data i st = Some st' →
  (long_boxes st' = long_boxes st ∧ bos_lines st' = bos_lines st)
  ∨ (∃ zone line, long_boxes st' = long_boxes st ++ [zone]
       ∧ bos_lines st' = bos_lines st ++ [line]
       ∧ b_color line = "green"
       ∧ lastLongIndex st' = Z.of_nat i).
Proof. apply short_pass_one_flip. Qed.

Lemma short_pass_flips_at_most_once_witness :
  (long_boxes
     (default _init_variables
        (short_pass two_zone_series 4
           (set_short_boxes
              [ mkBox 0 12 9 4 "a"; mkBox 1 9 8 4 "b"; mkBox 2 11 8 4 "c" ]
              _init_variables)))
   = long_boxes
       (set_short_boxes
          [ mkBox 0 12 9 4 "a"; mkBox 1 9 8 4 "b"; mkBox 2 11 8 4 "c" ]
          _init_variables)
   ∧ bos_lines
       (default _init_variables
          (short_pass two_zone_series 4
             (set_short_boxes
                [ mkBox 0 12 9 4 "a"; mkBox 1 9 8 4 "b"; mkBox 2 11 8 4 "c" ]
                _init_variables)))
     = bos_lines
         (set_short_boxes
            [ mkBox 0 12 9 4 "a"; mkBox 1 9 8 4 "b"; mkBox 2 11 8 4 "c" ]
            _init_variables))
  ∨ (∃ zone line,
       long_boxes
         (default _init_variables
            (short_pass two_zone_series 4
               (set_short_boxes
                  [ mkBox 0 12 9 4 "a"; mkBox 1 9 8 4 "b";
                    mkBox 2 11 8 4 "c" ]
                  _init_variables)))
       = long_boxes
           (set_short_boxes
              [ mkBox 0 12 9 4 "a"; mkBox 1 9 8 4 "b"; mkBox 2 11 8 4 "c" ]
              _init_variables) ++ [zone]
       ∧ bos_lines
           (default _init_variables
              (short_pass two_zone_series 4
                 (set_short_boxes
                    [ mkBox 0 12 9 4 "a"; mkBox 1 9 8 4 "b";
                      mkBox 2 11 8 4 "c" ]
                    _init_variables)))
         = bos_lines
             (set_short_boxes
                [ mkBox 0 12 9 4 "a"; mkBox 1 9 8 4 "b";
                  mkBox 2 11 8 4 "c" ]
                _init_variables) ++ [line]
       ∧ b_color line = "green"
       ∧ lastLongIndex
           (default _init_variables
              (short_pass two_zone_series 4
                 (set_short_boxes
                    [ mkBox 0 12 9 4 "a"; mkBox 1 9 8 4 "b";
                      mkBox 2 11 8 4 "c" ]
                    _init_variables)))
         = Z.of_nat 4).
Proof.
  apply (short_pass_flips_at_most_once two_zone_series 4).
  vm_compute. reflexivity.
Defined.

#[local] Instance long_index_advances_refl : Reflexive long_index_advances.
Proof. intros st. unfold long_index_advances. lia. Qed.

#[local] Instance long_index_advances_trans : Transitive long_index_advances.
Proof. intros s1 s2 s3. unfold long_index_advances. lia. Qed.

(** X12.  [lastLongIndex] never goes back: its value after [j] bars is at
    most its value after any [k >= j] bars. *)
Theorem lastLongIndex_monotone (data : list Candle)
    (structureLow : list (option Z)) (structureLowIndex : list Z)
    (j k : nat) (st_j st_k : State) :
  (j ≤ k)%nat →
  scan data structureLow structureLowIndex j _init_variables = Some st_j →
  scan data structureLow structureLowIndex k _init_variables = Some st_k →
  lastLongIndex st_j ≤ lastLongIndex st_k.
Proof.
  apply (scan_rel_between data structureLow structureLowIndex
           long_index_advances).
  - unfold bearish_break. intros i st st' H.
    apply bind_Some in H as (lo & _ & H).
    apply bind_Some in H as ([v|] & _ & H);
      [|injection H as <-; (unfold long_index_advances; simpl; lia)].
    case_bool_decide; [|injection H as <-; (unfold long_index_advances; simpl; lia)].
    apply bind_Some in H as (st1 & H1 & [= <-]).
    case_bool_decide; [|injection H1 as <-; (unfold long_index_advances; simpl; lia)].
    apply bind_Some in H1 as (n & _ & [= <-]). (unfold long_index_advances; simpl; lia).
  - unfold short_body. intros i box st st' _ H.
    apply bind_Some in H as (cl & _ & H).
    case_bool_decide; [|injection H as <-; (unfold long_index_advances; simpl; lia)].
    apply bind_Some in H as (l & _ & H).
    destruct (_ && _) eqn:Hguard; injection H as <-; [|(unfold long_index_advances; simpl; lia)].
    apply andb_true_iff in Hguard as [_ Hnew].
    apply bool_decide_eq_true_1 in Hnew. simpl in Hnew.
    unfold long_index_advances. simpl. lia.
  - unfold long_body. intros i box st st' _ H.
    apply bind_Some in H as (cl & _ & H).
    case_bool_decide; [|injection H as <-; (unfold long_index_advances; simpl; lia)].
    apply bind_Some in H as (l & _ & [= <-]). (unfold long_index_advances; simpl; lia).
  - unfold tracker_update. intros i st st' H.
    apply bind_Some in H as (c & _ & [= <-]).
    unfold long_index_advances. repeat case_bool_decide; simpl; lia.
Qed.

Lemma lastLongIndex_monotone_witness : 0 ≤ 4.
Proof.
  apply (lastLongIndex_monotone two_zone_series
           (structureLow_series two_zone_series 1) [0; 1; 2; 3; 4] 4 5
           (default _init_variables
              (scan two_zone_series (structureLow_series two_zone_series 1)
                 [0; 1; 2; 3; 4] 4 _init_variables))
           (default _init_variables
              (scan two_zone_series (structureLow_series two_zone_series 1)
                 [0; 1; 2; 3; 4] 5 _init_variables))).
  - lia.
  - vm_compute. reflexivity.
  - vm_compute. reflexivity.
Defined.

(** ** What a break draws *)

(** X13.  In a run set up by [calculate_structure_low], the bearish-break
    step of bar [i] either draws nothing, or draws a short zone and a red
    break line together; the red line then starts at bar [i] itself, at
    the price of the structural low that bar [i] went below, and the short
    zone is built from the tracker. *)
Theorem bearish_break_draws_at_breaking_bar (data : list Candle) (w i : nat)
    (sl : list (option Z)) (sli : list Z) (st st' : State) :
  calculate_structure_low data w = Some (sl, sli) →
  bearish_break data sl sli i st = Some st' →
  (short_boxes st' = short_boxes st ∧ bos_lines st' = bos_lines st)
  ∨ (∃ c v, data !! i = Some c ∧ sl !! i = Some (Some v) ∧ Low c < v
       ∧ Z.of_nat i - lastUpIndex st < 1000
       ∧ short_boxes st'
         = short_boxes st
           ++ [ mkBox (lastUpIndex st) (lastHigh st) (lastUpLow st)
                  (Z.of_nat (length data) - 1) "rgba(255,0,0,0.9)" ]
       ∧ bos_lines st'
         = bos_lines st
           ++ [ mkBox (Z.of_nat i) v v (Z.of_nat (length data) - 1)
                  "red" ]).
Proof.
  intros Hcalc. apply calculate_structure_low_Some in Hcalc as [-> ->].
  unfold bearish_break. intros H.
  apply bind_Some in H as (lo & Hlo & H).
  apply fmap_Some in Hlo as (c & Hc & ->).
  apply bind_Some in H as ([v|] & Hv & H); [|injection H as <-; by left].
  case_bool_decide as Hlt; [|injection H as <-; by left].
  apply bind_Some in H as (st1 & H1 & [= <-]).
  case_bool_decide as Hrecent; [|injection H1 as <-; by left].
  apply bind_Some in H1 as (n & Hn & [= <-]).
  rewrite list_lookup_fmap in Hn.
  apply fmap_Some in Hn as (m & Hm & ->).
  apply lookup_seq in Hm as [-> _].
  right. by exists c, v.
Qed.

Lemma bearish_break_draws_at_breaking_bar_witness :
  (short_boxes
     (default _init_variables
        (scan two_zone_series (structureLow_series two_zone_series 1)
           [0; 1; 2; 3; 4] 1 _init_variables
         ≫= bearish_break two_zone_series
              (structureLow_series two_zone_series 1) [0; 1; 2; 3; 4] 1))
   = short_boxes
       (default _init_variables
          (scan two_zone_series (structureLow_series two_zone_series 1)
             [0; 1; 2; 3; 4] 1 _init_variables))
   ∧ bos_lines
       (default _init_variables
          (scan two_zone_series (structureLow_series two_zone_series 1)
             [0; 1; 2; 3; 4] 1 _init_variables
           ≫= bearish_break two_zone_series
                (structureLow_series two_zone_series 1) [0; 1; 2; 3; 4] 1))
     = bos_lines
         (default _init_variables
            (scan two_zone_series (structureLow_series two_zone_series 1)
               [0; 1; 2; 3; 4] 1 _init_variables)))
  ∨ (∃ c v, two_zone_series !! 1%nat = Some c
       ∧ structureLow_series two_zone_series 1 !! 1%nat = Some (Some v)
       ∧ Low c < v
       ∧ Z.of_nat 1
         - lastUpIndex
             (default _init_variables
                (scan two_zone_series
                   (structureLow_series two_zone_series 1)
                   [0; 1; 2; 3; 4] 1 _init_variables)) < 1000
       ∧ short_boxes
           (default _init_variables
              (scan two_zone_series (structureLow_series two_zone_series 1)
                 [0; 1; 2; 3; 4] 1 _init_variables
               ≫= bearish_break two_zone_series
                    (structureLow_series two_zone_series 1)
                    [0; 1; 2; 3; 4] 1))
         = short_boxes
             (default _init_variables
                (scan two_zone_series
                   (structureLow_series two_zone_series 1)
                   [0; 1; 2; 3; 4] 1 _init_variables))
           ++ [ mkBox
                  (lastUpIndex
                     (default _init_variables
                        (scan two_zone_series
                           (structureLow_series two_zone_series 1)
                           [0; 1; 2; 3; 4] 1 _init_variables)))
                  (lastHigh
                     (default _init_variables
                        (scan two_zone_series
                           (structureLow_series two_zone_series 1)
                           [0; 1; 2; 3; 4] 1 _init_variables)))
                  (lastUpLow
                     (default _init_variables
                        (scan two_zone_series
                           (structureLow_series two_zone_series 1)
                           [0; 1; 2; 3; 4] 1 _init_variables)))
                  (Z.of_nat (length two_zone_series) - 1)
                  "rgba(255,0,0,0.9)" ]
       ∧ bos_lines
           (default _init_variables
              (scan two_zone_series (structureLow_series two_zone_series 1)
                 [0; 1; 2; 3; 4] 1 _init_variables
               ≫= bearish_break two_zone_series
                    (structureLow_series two_zone_series 1)
                    [0; 1; 2; 3; 4] 1))
         = bos_lines
             (default _init_variables
                (scan two_zone_series
                   (structureLow_series two_zone_series 1)
                   [0; 1; 2; 3; 4] 1 _init_variables))
           ++ [ mkBox (Z.of_nat 1) v v
                  (Z.of_nat (length two_zone_series) - 1) "red" ]).
Proof.
  apply (bearish_break_draws_at_breaking_bar two_zone_series 1 1
           (structureLow_series two_zone_series 1) [0; 1; 2; 3; 4]).
  - vm_compute. reflexivity.
  - vm_compute. reflexivity.
Defined.

(** ** How many boxes there can be *)

#[local] Instance same_on_refl {A : Type} (f : State → A) :
  Reflexive (same_on f).
Proof. by intros st. Qed.

#[local] Instance same_on_trans {A : Type} (f : State → A) :
  Transitive (same_on f).
Proof. intros s1 s2 s3 E1 E2. unfold same_on in *. congruence. Qed.

Lemma grows_by_trans a b c a' b' c' s1 s2 s3 :
  grows_by a b c s1 s2 → grows_by a' b' c' s2 s3 →
  grows_by (a + a') (b + b') (c + c') s1 s3.
Proof. unfold grows_by. lia. Qed.

Lemma bearish_break_grows data structureLow structureLowIndex (i : nat)
    st st' :
  bearish_break data structureLow structureLowIndex i st = Some st' →
  grows_by 1 0 1 st st'.
Proof.
  unfold bearish_break, grows_by. intros H.
  apply bind_Some in H as (lo & _ & H).
  apply bind_Some in H as ([v|] & _ & H); [|injection H as <-; lia].
  case_bool_decide; [|injection H as <-; lia].
  apply bind_Some in H as (st1 & H1 & [= <-]).
  case_bool_decide; [|injection H1 as <-; simpl; lia].
  apply bind_Some in H1 as (k & _ & [= <-]). simpl.
  rewrite !length_app. simpl. lia.
Qed.

Lemma short_pass_grows data (i : nat) st st' :
  short_pass data i st = Some st' → grows_by 0 1 1 st st'.
Proof.
  intros H. unfold grows_by.
  assert (short_kept (λ _, False) st st') as [_ Hsub].
  { apply (short_pass_kept data (λ _, False) i); [|done].
    by intros cl box _ _ Hfalse. }
  apply sublist_length in Hsub.
  apply short_pass_one_flip in H
    as [[-> ->]|(zone & line & -> & -> & _ & _)];
    rewrite ?length_app; simpl; lia.
Qed.

Lemma long_pass_grows data (i : nat) st st' :
  long_pass data i st = Some st' → grows_by 0 0 0 st st'.
Proof.
  intros H. unfold grows_by.
  assert (long_kept (λ _, False) st st') as [_ Hsub].
  { apply (long_pass_kept data (λ _, False) i); [|done].
    by intros cl box _ _ Hfalse. }
  apply sublist_length in Hsub.
  assert (same_on short_boxes st st' ∧ same_on bos_lines st st')
    as [Hs Hb].
  { unfold long_pass in H. case_bool_decide; [|by injection H as <-].
    split.
    - eapply (long_loop_rel data (same_on short_boxes)); [|done].
      unfold long_body. intros box s s' _ Hbody.
      apply bind_Some in Hbody as (cl & _ & Hbody).
      case_bool_decide; [|by injection Hbody as <-].
      by apply bind_Some in Hbody as (l & _ & [= <-]).
    - eapply (long_loop_rel data (same_on bos_lines)); [|done].
      unfold long_body. intros box s s' _ Hbody.
      apply bind_Some in Hbody as (cl & _ & Hbody).
      case_bool_decide; [|by injection Hbody as <-].
      by apply bind_Some in Hbody as (l & _ & [= <-]). }
  unfold same_on in Hs, Hb. rewrite Hs, Hb. lia.
Qed.

Lemma tracker_update_grows data (i : nat) st st' :
  tracker_update data i st = Some st' → grows_by 0 0 0 st st'.
Proof.
  unfold tracker_update, grows_by. intros H.
  apply bind_Some in H as (c & _ & [= <-]).
  repeat case_bool_decide; simpl; lia.
Qed.

Lemma process_bar_grows data structureLow structureLowIndex (i : nat)
    st st' :
  process_bar data structureLow structureLowIndex st i = Some st' →
  grows_by 1 1 2 st st'.
Proof.
  unfold process_bar. intros H.
  apply bind_Some in H as (st1 & H1 & H).
  apply bind_Some in H as (st2 & H2 & H).
  apply bind_Some in H as (st3 & H3 & H4).
  apply bearish_break_grows in H1. apply short_pass_grows in H2.
  apply long_pass_grows in H3. apply tracker_update_grows in H4.
  unfold grows_by in *. lia.
Qed.

(** X14.  Each bar adds at most one short zone, one long zone and two
    break lines, so after [k] bars there are at most [k] active short
    zones, [k] active long zones and [2k] break lines. *)
Theorem box_counts_bounded (data : list Candle)
    (structureLow : list (option Z)) (structureLowIndex : list Z)
    (k : nat) (st : State) :
  scan data structureLow structureLowIndex k _init_variables = Some st →
  (length (short_boxes st) ≤ k)%nat
  ∧ (length (long_boxes st) ≤ k)%nat
  ∧ (length (bos_lines st) ≤ 2 * k)%nat.
Proof.
  revert st. induction k as [|k IH]; intros st.
  - intros [= <-]. simpl. lia.
  - rewrite scan_S. intros H. apply bind_Some in H as (s & Hs & Hbar).
    apply IH in Hs. apply process_bar_grows in Hbar.
    unfold grows_by in Hbar. lia.
Qed.

Lemma box_counts_bounded_witness :
  (length
     (short_boxes
        (default _init_variables
           (scan two_zone_series (structureLow_series two_zone_series 1)
              [0; 1; 2; 3; 4]%Z 5 _init_variables))) ≤ 5)%nat
  ∧ (length
       (long_boxes
          (default _init_variables
             (scan two_zone_series (structureLow_series two_zone_series 1)
                [0; 1; 2; 3; 4]%Z 5 _init_variables))) ≤ 5)%nat
  ∧ (length
       (bos_lines
          (default _init_variables
             (scan two_zone_series (structureLow_series two_zone_series 1)
                [0; 1; 2; 3; 4]%Z 5 _init_variables))) ≤ 2 * 5)%nat.
Proof.
  apply (box_counts_bounded two_zone_series
           (structureLow_series two_zone_series 1) [0; 1; 2; 3; 4] 5).
  vm_compute. reflexivity.
Defined.

(** ** What the tracker holds *)

Section Tracker.

Variable data : list Candle.
Variable structureLow : list (option Z).
Variable structureLowIndex : list Z.

Lemma bearish_break_tracker (i : nat) st st' :
  bearish_break data structureLow structureLowIndex i st = Some st' →
  same_on tracker_fields st st'.
Proof.
  unfold bearish_break. intros H.
  apply bind_Some in H as (lo & _ & H).
  apply bind_Some in H as ([v|] & _ & H); [|by injection H as <-].
  case_bool_decide; [|by injection H as <-].
  apply bind_Some in H as (st1 & H1 & [= <-]).
  case_bool_decide; [|by injection H1 as <-].
  by apply bind_Some in H1 as (k & _ & [= <-]).
Qed.

Lemma short_body_tracker (i : nat) box st st' :
  short_body data i box st = Some st' → same_on tracker_fields st st'.
Proof.
  unfold short_body. intros H.
  apply bind_Some in H as (cl & _ & H).
  case_bool_decide; [|by injection H as <-].
  apply bind_Some in H as (l & _ & H).
  by destruct (_ && _); injection H as <-.
Qed.

Lemma long_body_tracker (i : nat) box st st' :
  long_body data i box st = Some st' → same_on tracker_fields st st'.
Proof.
  unfold long_body. intros H.
  apply bind_Some in H as (cl & _ & H).
  case_bool_decide; [|by injection H as <-].
  by apply bind_Some in H as (l & _ & [= <-]).
Qed.

(** Only the last step of a bar writes the tracker: the state after bar
    [i] has the tracker that [tracker_update] computes from the tracker
    before the bar. *)
Lemma process_bar_tracker (i : nat) c st st' :
  data !! i = Some c →
  process_bar data structureLow structureLowIndex st i = Some st' →
  ∃ st3, tracker_fields st3 = tracker_fields st
    ∧ tracker_update data i st3 = Some st'.
Proof.
  intros Hc. unfold process_bar. intros H.
  apply bind_Some in H as (st1 & H1 & H).
  apply bind_Some in H as (st2 & H2 & H).
  apply bind_Some in H as (st3 & H3 & H4).
  exists st3. split; [|done].
  apply bearish_break_tracker in H1.
  assert (same_on tracker_fields st1 st2) as H2'.
  { unfold short_pass in H2. case_bool_decide; [|by injection H2 as <-].
    eapply (short_loop_rel data (same_on tracker_fields)); [|done].
    intros box s s' _. apply short_body_tracker. }
  assert (same_on tracker_fields st2 st3) as H3'.
  { unfold long_pass in H3. case_bool_decide; [|by injection H3 as <-].
    eapply (long_loop_rel data (same_on tracker_fields)); [|done].
    intros box s s' _. apply long_body_tracker. }
  unfold same_on in *. congruence.
Qed.

Lemma process_bar_bullish (i : nat) c st st' :
  data !! i = Some c → Close c > Open c →
  process_bar data structureLow structureLowIndex st i = Some st' →
  lastUpIndex st' = Z.of_nat i ∧ lastUp st' = Close c
  ∧ lastUpOpen st' = Open c ∧ lastUpLow st' = Low c
  ∧ lastHigh st' = High c.
Proof.
  intros Hc Hup H.
  destruct (process_bar_tracker i c st st' Hc H) as (st3 & _ & Hupd).
  unfold tracker_update in Hupd. rewrite Hc in Hupd. simpl in Hupd.
  injection Hupd as <-. rewrite (bool_decide_eq_true_2 _ Hup).
  case_bool_decide; simpl; repeat split; lia.
Qed.

Lemma process_bar_other_than_bullish (i : nat) c st st' :
  data !! i = Some c → ¬ Close c > Open c →
  process_bar data structureLow structureLowIndex st i = Some st' →
  lastUpIndex st' = lastUpIndex st ∧ lastUp st' = lastUp st
  ∧ lastUpOpen st' = lastUpOpen st ∧ lastUpLow st' = lastUpLow st
  ∧ lastHigh st' = Z.max (lastHigh st) (High c).
Proof.
  intros Hc Hup H.
  destruct (process_bar_tracker i c st st' Hc H) as (st3 & Hsame & Hupd).
  clear H.
  unfold tracker_update in Hupd. rewrite Hc in Hupd. simpl in Hupd.
  injection Hupd as <-. rewrite (bool_decide_eq_false_2 _ Hup).
  unfold tracker_fields in Hsame.
  injection Hsame as E1 E2 E3 E4 E5 E6 E7 E8.
  rewrite <- E4, <- E5, <- E6, <- E7, <- E8. by case_bool_decide.
Qed.

Lemma process_bar_bearish (i : nat) c st st' :
  data !! i = Some c → Close c < Open c →
  process_bar data structureLow structureLowIndex st i = Some st' →
  lastDownIndex st' = Z.of_nat i ∧ lastDown st' = High c
  ∧ lastLow st' = Low c.
Proof.
  intros Hc Hdown H.
  destruct (process_bar_tracker i c st st' Hc H) as (st3 & _ & Hupd).
  unfold tracker_update in Hupd. rewrite Hc in Hupd. simpl in Hupd.
  injection Hupd as <-. rewrite (bool_decide_eq_true_2 _ Hdown).
  case_bool_decide; simpl; repeat split; lia.
Qed.

Lemma process_bar_other_than_bearish (i : nat) c st st' :
  data !! i = Some c → ¬ Close c < Open c →
  process_bar data structureLow structureLowIndex st i = Some st' →
  lastDownIndex st' = lastDownIndex st ∧ lastDown st' = lastDown st
  ∧ lastLow st' = Z.min (lastLow st) (Low c).
Proof.
  intros Hc Hdown H.
  destruct (process_bar_tracker i c st st' Hc H) as (st3 & Hsame & Hupd).
  clear H.
  unfold tracker_update in Hupd. rewrite Hc in Hupd. simpl in Hupd.
  injection Hupd as <-. rewrite (bool_decide_eq_false_2 _ Hdown).
  unfold tracker_fields in Hsame.
  injection Hsame as E1 E2 E3 E4 E5 E6 E7 E8.
  rewrite <- E1, <- E2, <- E3. by case_bool_decide.
Qed.

End Tracker.

(** X15.  After [k] bars, if bar [j < k] is the last bar that closed above
    its open, the tracker holds that bar: [lastUpIndex = j], [lastUp],
    [lastUpOpen] and [lastUpLow] are its close, open and low, and
    [lastHigh] is the highest high of the bars [j .. k-1].  (These are the
    left edge, bottom and top of a short zone emitted at bar [k].) *)
Theorem last_bullish_candle_tracked (data : list Candle)
    (structureLow : list (option Z)) (structureLowIndex : list Z)
    (k j : nat) (c : Candle) (st : State) :
  scan data structureLow structureLowIndex k _init_variables = Some st →
  (j < k)%nat → data !! j = Some c → Close c > Open c →
  (∀ (m : nat) c', (j < m < k)%nat → data !! m = Some c' →
     ¬ Close c' > Open c') →
  lastUpIndex st = Z.of_nat j ∧ lastUp st = Close c
  ∧ lastUpOpen st = Open c ∧ lastUpLow st = Low c
  ∧ (∃ (m : nat) c', (j ≤ m < k)%nat ∧ data !! m = Some c'
       ∧ High c' = lastHigh st)
  ∧ (∀ (m : nat) c', (j ≤ m < k)%nat → data !! m = Some c' →
       High c' ≤ lastHigh st).
Proof.
  revert st. induction k as [|k IH]; intros st Hscan Hjk Hc Hup Hlast;
    [lia|].
  rewrite scan_S in Hscan. apply bind_Some in Hscan as (s & Hs & Hbar).
  pose proof (process_bar_lt _ _ _ _ _ _ Hbar) as Hk.
  destruct (lookup_lt_is_Some_2 data k Hk) as [ck Hck].
  destruct (decide (j = k)) as [->|Hne].
  - assert (ck = c) as -> by congruence.
    destruct (process_bar_bullish _ _ _ _ _ _ _ Hck Hup Hbar)
      as (E1 & E2 & E3 & E4 & E5).
    repeat split; try done.
    + exists k, c. split; [lia|]. by split.
    + intros m c' Hm Hc'. assert (m = k) as -> by lia.
      assert (c' = c) as -> by congruence. lia.
  - assert (¬ Close ck > Open ck) as Hnot by (apply (Hlast k); [lia|done]).
    destruct (IH s Hs) as (F1 & F2 & F3 & F4 & (m0 & c0 & Hm0 & Hc0 & F5) & F6);
      [lia|done|done|by intros m c' Hm; apply Hlast; lia|].
    destruct (process_bar_other_than_bullish _ _ _ _ _ _ _ Hck Hnot Hbar)
      as (E1 & E2 & E3 & E4 & E5).
    repeat split; try congruence.
    + destruct (Z.max_spec (lastHigh s) (High ck)) as [[Hlt Hmax]|[Hge Hmax]].
      * exists k, ck. split; [lia|]. split; [done|]. lia.
      * exists m0, c0. split; [lia|]. split; [done|]. lia.
    + intros m c' Hm Hc'. destruct (decide (m = k)) as [->|Hmk].
      * assert (c' = ck) as -> by congruence. lia.
      * specialize (F6 m c' ltac:(lia) Hc'). lia.
Qed.

Lemma last_bullish_candle_tracked_witness :
  lastUpIndex
    (default _init_variables
       (scan two_zone_series (structureLow_series two_zone_series 1)
          [0; 1; 2; 3; 4] 4 _init_variables)) = Z.of_nat 2
  ∧ lastUpLow
      (default _init_variables
         (scan two_zone_series (structureLow_series two_zone_series 1)
            [0; 1; 2; 3; 4] 4 _init_variables)) = 8.
Proof.
  destruct (last_bullish_candle_tracked two_zone_series
              (structureLow_series two_zone_series 1) [0; 1; 2; 3; 4] 4 2
              (mkCandle 2 8 11 8 10)
              (default _init_variables
                 (scan two_zone_series
                    (structureLow_series two_zone_series 1)
                    [0; 1; 2; 3; 4] 4 _init_variables)))
    as (E1 & _ & _ & E4 & _).
  - vm_compute. reflexivity.
  - lia.
  - vm_compute. reflexivity.
  - simpl. lia.
  - intros m c' Hm Hc'. assert (m = 3%nat) as -> by lia.
    vm_compute in Hc'. injection Hc' as <-. simpl. lia.
  - split; [exact E1|exact E4].
Defined.

(** X16.  After [k] bars, if bar [j < k] is the last bar that closed below
    its open, the tracker holds that bar: [lastDownIndex = j], [lastDown]
    is its high, and [lastLow] is the lowest low of the bars [j .. k-1].
    (These are the left edge, top and bottom of a long zone emitted at
    bar [k].) *)
Theorem last_bearish_candle_tracked (data : list Candle)
    (structureLow : list (option Z)) (structureLowIndex : list Z)
    (k j : nat) (c : Candle) (st : State) :
  scan data structureLow structureLowIndex k _init_variables = Some st →
  (j < k)%nat → data !! j = Some c → Close c < Open c →
  (∀ (m : nat) c', (j < m < k)%nat → data !! m = Some c' →
     ¬ Close c' < Open c') →
  lastDownIndex st = Z.of_nat j ∧ lastDown st = High c
  ∧ (∃ (m : nat) c', (j ≤ m < k)%nat ∧ data !! m = Some c'
       ∧ Low c' = lastLow st)
  ∧ (∀ (m : nat) c', (j ≤ m < k)%nat → data !! m = Some c' →
       lastLow st ≤ Low c').
Proof.
  revert st. induction k as [|k IH]; intros st Hscan Hjk Hc Hdown Hlast;
    [lia|].
  rewrite scan_S in Hscan. apply bind_Some in Hscan as (s & Hs & Hbar).
  pose proof (process_bar_lt _ _ _ _ _ _ Hbar) as Hk.
  destruct (lookup_lt_is_Some_2 data k Hk) as [ck Hck].
  destruct (decide (j = k)) as [->|Hne].
  - assert (ck = c) as -> by congruence.
    destruct (process_bar_bearish _ _ _ _ _ _ _ Hck Hdown Hbar)
      as (E1 & E2 & E3).
    repeat split; try done.
    + exists k, c. split; [lia|]. by split.
    + intros m c' Hm Hc'. assert (m = k) as -> by lia.
      assert (c' = c) as -> by congruence. lia.
  - assert (¬ Close ck < Open ck) as Hnot by (apply (Hlast k); [lia|done]).
    destruct (IH s Hs) as (F1 & F2 & (m0 & c0 & Hm0 & Hc0 & F3) & F4);
      [lia|done|done|by intros m c' Hm; apply Hlast; lia|].
    destruct (process_bar_other_than_bearish _ _ _ _ _ _ _ Hck Hnot Hbar)
      as (E1 & E2 & E3).
    repeat split; try congruence.
    + destruct (Z.min_spec (lastLow s) (Low ck)) as [[Hlt Hmin]|[Hge Hmin]].
      * exists m0, c0. split; [lia|]. split; [done|]. lia.
      * exists k, ck. split; [lia|]. split; [done|]. lia.
    + intros m c' Hm Hc'. destruct (decide (m = k)) as [->|Hmk].
      * assert (c' = ck) as -> by congruence. lia.
      * specialize (F4 m c' ltac:(lia) Hc'). lia.
Qed.

Lemma last_bearish_candle_tracked_witness :
  lastDownIndex
    (default _init_variables
       (scan two_zone_series (structureLow_series two_zone_series 1)
          [0; 1; 2; 3; 4] 3 _init_variables)) = Z.of_nat 1
  ∧ lastDown
      (default _init_variables
         (scan two_zone_series (structureLow_series two_zone_series 1)
            [0; 1; 2; 3; 4] 3 _init_variables)) = 10.
Proof.
  destruct (last_bearish_candle_tracked two_zone_series
              (structureLow_series two_zone_series 1) [0; 1; 2; 3; 4] 3 1
              (mkCandle 1 10 10 8 9)
              (default _init_variables
                 (scan two_zone_series
                    (structureLow_series two_zone_series 1)
                    [0; 1; 2; 3; 4] 3 _init_variables)))
    as (E1 & E2 & _).
  - vm_compute. reflexivity.
  - lia.
  - vm_compute. reflexivity.
  - simpl. lia.
  - intros m c' Hm Hc'. assert (m = 2%nat) as -> by lia.
    vm_compute in Hc'. injection Hc' as <-. simpl. lia.
  - split; [exact E1|exact E2].
Defined.

(** ** When a removal pass changes the list *)

#[local] Existing Instance short_kept_refl.
#[local] Existing Instance short_kept_trans.
#[local] Existing Instance long_kept_refl.
#[local] Existing Instance long_kept_trans.

Section Progress.

Variable data : list Candle.
Variable i : nat.
Variable cl : Z.
Hypothesis close_i : Close <$> data !! i = Some cl.

Lemma short_body_unbroken box st :
  ¬ cl > b_top box → short_body data i box st = Some st.
Proof.
  intros Hkeep. unfold short_body. rewrite close_i. simpl.
  by rewrite bool_decide_eq_false_2.
Qed.

Lemma short_body_broken box st st' :
  cl > b_top box → short_body data i box st = Some st' →
  length (short_boxes st) = S (length (short_boxes st')).
Proof.
  intros Hgt. unfold short_body. rewrite close_i. simpl.
  rewrite bool_decide_eq_true_2 by done. intros H.
  apply bind_Some in H as (l & Hl & H). apply list_remove_length in Hl.
  by destruct (_ && _); injection H as <-.
Qed.

Lemma short_loop_shrinks fuel (idx : nat) st st' :
  short_loop data fuel i idx st = Some st' →
  (length (short_boxes st') ≤ length (short_boxes st))%nat.
Proof.
  intros H.
  apply (short_loop_rel data (short_kept (λ _, False))) in H.
  - destruct H as [_ Hsub]. by apply sublist_length.
  - intros box s s' _. apply short_body_kept. by intros c _ _ Hfalse.
Qed.

Lemma short_loop_removes fuel : ∀ (idx p : nat) b st st',
  (idx ≤ p)%nat → short_boxes st !! p = Some b → cl > b_top b →
  short_loop data fuel i idx st = Some st' →
  (length (short_boxes st') < length (short_boxes st))%nat.
Proof.
  induction fuel as [|fuel IH]; intros idx p b st st' Hp Hb Hgt; simpl.
  - destruct (short_boxes st !! idx) as [e|] eqn:He; [done|].
    apply lookup_ge_None_1 in He. apply lookup_lt_Some in Hb. lia.
  - destruct (short_boxes st !! idx) as [e|] eqn:He.
    2:{ apply lookup_ge_None_1 in He. apply lookup_lt_Some in Hb. lia. }
    intros H. apply bind_Some in H as (s1 & Hs1 & Hrest).
    destruct (decide (cl > b_top e)) as [Hbroken|Hkeep].
    + apply short_body_broken in Hs1; [|done].
      apply short_loop_shrinks in Hrest. lia.
    + rewrite short_body_unbroken in Hs1 by done. injection Hs1 as <-.
      apply (IH (S idx) p b st st'); [|done..].
      destruct (decide (idx = p)) as [->|]; [|lia]. congruence.
Qed.

Lemma long_body_unbroken box st :
  ¬ cl < b_bottom box → long_body data i box st = Some st.
Proof.
  intros Hkeep. unfold long_body. rewrite close_i. simpl.
  by rewrite bool_decide_eq_false_2.
Qed.

Lemma long_body_broken box st st' :
  cl < b_bottom box → long_body data i box st = Some st' →
  length (long_boxes st) = S (length (long_boxes st')).
Proof.
  intros Hlt. unfold long_body. rewrite close_i. simpl.
  rewrite bool_decide_eq_true_2 by done. intros H.
  apply bind_Some in H as (l & Hl & [= <-]).
  by apply list_remove_length in Hl.
Qed.

Lemma long_loop_shrinks fuel (idx : nat) st st' :
  long_loop data fuel i idx st = Some st' →
  (length (long_boxes st') ≤ length (long_boxes st))%nat.
Proof.
  intros H.
  apply (long_loop_rel data (long_kept (λ _, False))) in H.
  - destruct H as [_ Hsub]. by apply sublist_length.
  - intros box s s' _. apply long_body_kept. by intros c _ _ Hfalse.
Qed.

Lemma long_loop_removes fuel : ∀ (idx p : nat) b st st',
  (idx ≤ p)%nat → long_boxes st !! p = Some b → cl < b_bottom b →
  long_loop data fuel i idx st = Some st' →
  (length (long_boxes st') < length (long_boxes st))%nat.
Proof.
  induction fuel as [|fuel IH]; intros idx p b st st' Hp Hb Hlt; simpl.
  - destruct (long_boxes st !! idx) as [e|] eqn:He; [done|].
    apply lookup_ge_None_1 in He. apply lookup_lt_Some in Hb. lia.
  - destruct (long_boxes st !! idx) as [e|] eqn:He.
    2:{ apply lookup_ge_None_1 in He. apply lookup_lt_Some in Hb. lia. }
    intros H. apply bind_Some in H as (s1 & Hs1 & Hrest).
    destruct (decide (cl < b_bottom e)) as [Hbroken|Hkeep].
    + apply long_body_broken in Hs1; [|done].
      apply long_loop_shrinks in Hrest. lia.
    + rewrite long_body_unbroken in Hs1 by done. injection Hs1 as <-.
      apply (IH (S idx) p b st st'); [|done..].
      destruct (decide (idx = p)) as [->|]; [|lia]. congruence.
Qed.

End Progress.

(** X17.  At a bar with close [cl], the pass over the short zones leaves
    the whole object untouched when no active short zone has its top below
    [cl], and removes at least one zone when some active short zone has:
    the skipping of zones can delay a removal but not block all of them. *)
Theorem short_pass_removes_iff_broken (data : list Candle) (i : nat)
    (cl : Z) (st st' : State) :
  Close <$> data !! i = Some cl →
  short_pass data i st = Some st' →
  (Forall (λ b, ¬ cl > b_top b) (short_boxes st) → st' = st)
  ∧ (Exists (λ b, cl > b_top b) (short_boxes st) →
     (length (short_boxes st') < length (short_boxes st))%nat).
Proof.
  intros Hcl Hpass. unfold short_pass in Hpass. split.
  - intros Hall. case_bool_decide; [|by injection Hpass as <-].
    apply (short_loop_rel data (preserves (λ s, s = st))) in Hpass;
      [by apply Hpass|].
    intros box s s' Hbox Hbody ->.
    rewrite Forall_forall in Hall.
    rewrite (short_body_unbroken data i cl Hcl) in Hbody by by apply Hall.
    by injection Hbody as <-.
  - intros Hex. apply Exists_exists in Hex as (b & Hb & Hgt).
    apply list_elem_of_lookup_1 in Hb as [p Hp].
    case_bool_decide as Hlen.
    + eapply (short_loop_removes data i cl Hcl _ 0%nat p b st st');
        [lia|done..].
    + apply lookup_lt_Some in Hp. lia.
Qed.

Lemma short_pass_removes_iff_broken_witness :
  (Forall (λ b, ¬ 13 > b_top b)
     (short_boxes
        (set_short_boxes
           [ mkBox 0 12 9 4 "a"; mkBox 2 11 8 4 "b" ] _init_variables)) →
   default _init_variables
     (short_pass two_zone_series 4
        (set_short_boxes
           [ mkBox 0 12 9 4 "a"; mkBox 2 11 8 4 "b" ] _init_variables))
   = set_short_boxes
       [ mkBox 0 12 9 4 "a"; mkBox 2 11 8 4 "b" ] _init_variables)
  ∧ (Exists (λ b, 13 > b_top b)
       (short_boxes
          (set_short_boxes
             [ mkBox 0 12 9 4 "a"; mkBox 2 11 8 4 "b" ] _init_variables)) →
     (length
        (short_boxes
           (default _init_variables
              (short_pass two_zone_series 4
                 (set_short_boxes
                    [ mkBox 0 12 9 4 "a"; mkBox 2 11 8 4 "b" ]%Z
                    _init_variables))))
      < length
          (short_boxes
             (set_short_boxes
                [ mkBox 0 12 9 4 "a"; mkBox 2 11 8 4 "b" ]%Z
                _init_variables)))%nat).
Proof.
  apply (short_pass_removes_iff_broken two_zone_series 4 13).
  - vm_compute. reflexivity.
  - vm_compute. reflexivity.
Defined.

(** X18.  At a bar with close [cl], the pass over the long zones leaves
    the whole object untouched when no active long zone has its bottom
    above [cl], and removes at least one zone when some active long zone
    has. *)
Theorem long_pass_removes_iff_broken (data : list Candle) (i : nat)
    (cl : Z) (st st' : State) :
  Close <$> data !! i = Some cl →
  long_pass data i st = Some st' →
  (Forall (λ b, ¬ cl < b_bottom b) (long_boxes st) → st' = st)
  ∧ (Exists (λ b, cl < b_bottom b) (long_boxes st) →
     (length (long_boxes st') < length (long_boxes st))%nat).
Proof.
  intros Hcl Hpass. unfold long_pass in Hpass. split.
  - intros Hall. case_bool_decide; [|by injection Hpass as <-].
    apply (long_loop_rel data (preserves (λ s, s = st))) in Hpass;
      [by apply Hpass|].
    intros box s s' Hbox Hbody ->.
    rewrite Forall_forall in Hall.
    rewrite (long_body_unbroken data i cl Hcl) in Hbody by by apply Hall.
    by injection Hbody as <-.
  - intros Hex. apply Exists_exists in Hex as (b & Hb & Hlt).
    apply list_elem_of_lookup_1 in Hb as [p Hp].
    case_bool_decide as Hlen.
    + eapply (long_loop_removes data i cl Hcl _ 0%nat p b st st');
        [lia|done..].
    + apply lookup_lt_Some in Hp. lia.
Qed.

Lemma long_pass_removes_iff_broken_witness :
  (Forall (λ b, ¬ 10 < b_bottom b)
     (long_boxes
        (set_long_boxes
           [ mkBox 0 12 9 4 "a"; mkBox 1 13 11 4 "b" ] _init_variables)) →
   default _init_variables
     (long_pass two_zone_series 2
        (set_long_boxes
           [ mkBox 0 12 9 4 "a"; mkBox 1 13 11 4 "b" ] _init_variables))
   = set_long_boxes
       [ mkBox 0 12 9 4 "a"; mkBox 1 13 11 4 "b" ] _init_variables)
  ∧ (Exists (λ b, 10 < b_bottom b)
       (long_boxes
          (set_long_boxes
             [ mkBox 0 12 9 4 "a"; mkBox 1 13 11 4 "b" ] _init_variables)) →
     (length
        (long_boxes
           (default _init_variables
              (long_pass two_zone_series 2
                 (set_long_boxes
                    [ mkBox 0 12 9 4 "a"; mkBox 1 13 11 4 "b" ]%Z
                    _init_variables))))
      < length
          (long_boxes
             (set_long_boxes
                [ mkBox 0 12 9 4 "a"; mkBox 1 13 11 4 "b" ]%Z
                _init_variables)))%nat).
Proof.
  apply (long_pass_removes_iff_broken two_zone_series 2 10).
  - vm_compute. reflexivity.
  - vm_compute. reflexivity.
Defined.

(** ** Which zone the flip marks *)

Section Flip.

Variable data : list Candle.
Variable i : nat.
Variable cl : Z.
Hypothesis close_i : Close <$> data !! i = Some cl.

Lemma short_body_after_flip longs lines box st st' :
  short_body data i box st = Some st' →
  preserves (λ s, long_boxes s = longs ∧ bos_lines s = lines
                  ∧ lastLongIndex s = Z.of_nat i) st st'.
Proof.
  unfold short_body. intros H (Hl & Hb & Hidx).
  apply bind_Some in H as (c & _ & H).
  case_bool_decide; [|by injection H as <-].
  apply bind_Some in H as (l & _ & H).
  destruct (_ && _) eqn:Hguard; injection H as <-; [|done].
  apply andb_true_iff in Hguard as [_ Hnew].
  apply bool_decide_eq_true_1 in Hnew. simpl in Hnew. lia.
Qed.

Lemma short_body_guard_closed longs lines down_index long_index box st st' :
  ¬ (Z.of_nat i - down_index < 1000 ∧ Z.of_nat i > long_index) →
  short_body data i box st = Some st' →
  preserves (λ s, long_boxes s = longs ∧ bos_lines s = lines
                  ∧ lastDownIndex s = down_index
                  ∧ lastLongIndex s = long_index) st st'.
Proof.
  intros Hclosed. unfold short_body. intros H (Hl & Hb & Hd & Hidx).
  apply bind_Some in H as (c & _ & H).
  case_bool_decide; [|by injection H as <-].
  apply bind_Some in H as (l & _ & H).
  destruct (_ && _) eqn:Hguard; injection H as <-; [|done].
  apply andb_true_iff in Hguard as [Hrecent Hnew].
  apply bool_decide_eq_true_1 in Hrecent, Hnew. simpl in Hrecent, Hnew.
  lia.
Qed.

Lemma short_loop_first_broken pre z post st st' fuel :
  short_boxes st = pre ++ z :: post →
  Forall (λ b, ¬ cl > b_top b) pre → cl > b_top z →
  Z.of_nat i - lastDownIndex st < 1000 → Z.of_nat i > lastLongIndex st →
  ∀ idx : nat, (idx ≤ length pre)%nat →
  short_loop data fuel i idx st = Some st' →
  long_boxes st'
  = long_boxes st
    ++ [ add_order_block data (lastDownIndex st) (lastDown st) (lastLow st)
           "rgba(0,255,0,0.9)" ]
  ∧ bos_lines st'
    = bos_lines st
      ++ [ add_order_block data (b_left z) (b_top z) (b_top z) "green" ]
  ∧ lastLongIndex st' = Z.of_nat i.
Proof.
  intros Hlist Hpre Hz Hrecent Hnew.
  induction fuel as [|fuel IH]; intros idx Hidx; simpl.
  - rewrite Hlist.
    destruct ((pre ++ z :: post) !! idx) as [e|] eqn:He; [done|].
    apply lookup_ge_None_1 in He. rewrite length_app in He. simpl in He. lia.
  - destruct (short_boxes st !! idx) as [e|] eqn:He.
    2:{ apply lookup_ge_None_1 in He. rewrite Hlist, length_app in He.
        simpl in He. lia. }
    intros H. apply bind_Some in H as (s1 & Hs1 & Hrest).
    destruct (decide (idx = length pre)) as [->|Hne].
    + rewrite Hlist, list_lookup_middle in He by done. injection He as <-.
      unfold short_body in Hs1. rewrite close_i in Hs1. simpl in Hs1.
      rewrite bool_decide_eq_true_2 in Hs1 by done.
      apply bind_Some in Hs1 as (l & _ & Hs1). simpl in Hs1.
      rewrite !bool_decide_eq_true_2 in Hs1 by done. simpl in Hs1.
      injection Hs1 as <-.
      apply (short_loop_rel data
               (preserves
                  (λ s, long_boxes s
                        = long_boxes st
                          ++ [ add_order_block data (lastDownIndex st)
                                 (lastDown st) (lastLow st)
                                 "rgba(0,255,0,0.9)" ]
                        ∧ bos_lines s
                          = bos_lines st
                            ++ [ add_order_block data (b_left z) (b_top z)
                                   (b_top z) "green" ]
                        ∧ lastLongIndex s = Z.of_nat i))) in Hrest.
      * by apply Hrest.
      * intros box s s' _. apply short_body_after_flip.
    + rewrite Hlist, lookup_app_l in He by lia.
      rewrite Forall_lookup in Hpre. apply Hpre in He.
      rewrite (short_body_unbroken data i cl close_i) in Hs1 by done.
      injection Hs1 as <-. apply (IH (S idx)); [lia|done].
Qed.

End Flip.

(** X19.  When the first active short zone with its top below the close
    of bar [i] is [z], the last bearish candle is less than 1000 bars back
    and [i] is beyond [lastLongIndex], the pass over the short zones draws
    exactly one long zone, built from the tracker as it stood before the
    pass, and exactly one green break line, at the left edge and top of
    [z]; [lastLongIndex] becomes [i]. *)
Theorem short_pass_flip_marks_first_broken_zone (data : list Candle)
    (i : nat) (cl : Z) (pre : list Box) (z : Box) (post : list Box)
    (st st' : State) :
  Close <$> data !! i = Some cl →
  short_boxes st = pre ++ z :: post →
  Forall (λ b, ¬ cl > b_top b) pre → cl > b_top z →
  Z.of_nat i - lastDownIndex st < 1000 → Z.of_nat i > lastLongIndex st →
  short_pass data i st = Some st' →
  long_boxes st'
  = long_boxes st
    ++ [ mkBox (lastDownIndex st) (lastDown st) (lastLow st)
           (Z.of_nat (length data) - 1) "rgba(0,255,0,0.9)" ]
  ∧ bos_lines st'
    = bos_lines st
      ++ [ mkBox (b_left z) (b_top z) (b_top z)
             (Z.of_nat (length data) - 1) "green" ]
  ∧ lastLongIndex st' = Z.of_nat i.
Proof.
  intros Hcl Hlist Hpre Hz Hrecent Hnew. unfold short_pass.
  rewrite bool_decide_eq_true_2.
  2:{ rewrite Hlist, length_app. simpl. lia. }
  apply (short_loop_first_broken data i cl Hcl pre z post); try done. lia.
Qed.

Lemma short_pass_flip_marks_first_broken_zone_witness :
  long_boxes
    (default _init_variables
       (short_pass two_zone_series 4
          (set_short_boxes
             [ mkBox 0 14 9 4 "a"; mkBox 1 9 8 4 "b"; mkBox 2 11 8 4 "c" ]
             _init_variables)))
  = long_boxes
      (set_short_boxes
         [ mkBox 0 14 9 4 "a"; mkBox 1 9 8 4 "b"; mkBox 2 11 8 4 "c" ]
         _init_variables)
    ++ [ mkBox 0 0 0 (Z.of_nat (length two_zone_series) - 1)
           "rgba(0,255,0,0.9)" ]
  ∧ bos_lines
      (default _init_variables
         (short_pass two_zone_series 4
            (set_short_boxes
               [ mkBox 0 14 9 4 "a"; mkBox 1 9 8 4 "b"; mkBox 2 11 8 4 "c" ]
               _init_variables)))
    = bos_lines
        (set_short_boxes
           [ mkBox 0 14 9 4 "a"; mkBox 1 9 8 4 "b"; mkBox 2 11 8 4 "c" ]
           _init_variables)
      ++ [ mkBox 1 9 9 (Z.of_nat (length two_zone_series) - 1) "green" ]
  ∧ lastLongIndex
      (default _init_variables
         (short_pass two_zone_series 4
            (set_short_boxes
               [ mkBox 0 14 9 4 "a"; mkBox 1 9 8 4 "b"; mkBox 2 11 8 4 "c" ]
               _init_variables)))
    = Z.of_nat 4.
Proof.
  apply (short_pass_flip_marks_first_broken_zone two_zone_series 4 13
           [ mkBox 0 14 9 4 "a" ] (mkBox 1 9 8 4 "b")
           [ mkBox 2 11 8 4 "c" ]
           (set_short_boxes
              [ mkBox 0 14 9 4 "a"; mkBox 1 9 8 4 "b"; mkBox 2 11 8 4 "c" ]
              _init_variables)).
  - vm_compute. reflexivity.
  - reflexivity.
  - apply Forall_singleton. simpl. lia.
  - simpl. lia.
  - simpl. lia.
  - simpl. lia.
  - vm_compute. reflexivity.
Defined.

(** X20.  When the last bearish candle is 1000 bars back or more, or the
    bar index is not beyond [lastLongIndex], the pass over the short zones
    may still remove zones but draws no long zone and no break line, and
    leaves [lastLongIndex] alone. *)
Theorem short_pass_without_flip (data : list Candle) (i : nat)
    (st st' : State) :
  ¬ (Z.of_nat i - lastDownIndex st < 1000
     ∧ Z.of_nat i > lastLongIndex st) →
  short_pass data i st = Some st' →
  long_boxes st' = long_boxes st ∧ bos_lines st' = bos_lines st
  ∧ lastLongIndex st' = lastLongIndex st.
Proof.
  intros Hclosed. unfold short_pass.
  case_bool_decide; [|by intros [= <-]].
  intros Hpass.
  apply (short_loop_rel data
           (preserves
              (λ s, long_boxes s = long_boxes st
                    ∧ bos_lines s = bos_lines st
                    ∧ lastDownIndex s = lastDownIndex st
                    ∧ lastLongIndex s = lastLongIndex st))) in Hpass.
  - destruct Hpass as (Hl & Hb & _ & Hidx); done.
  - intros box s s' _. by apply short_body_guard_closed.
Qed.

Lemma short_pass_without_flip_witness :
  long_boxes
    (default _init_variables
       (short_pass two_zone_series 4
          (set_lastLongIndex 4
             (set_short_boxes [ mkBox 0 12 9 4 "a" ] _init_variables))))
  = long_boxes
      (set_lastLongIndex 4
         (set_short_boxes [ mkBox 0 12 9 4 "a" ] _init_variables))
  ∧ bos_lines
      (default _init_variables
         (short_pass two_zone_series 4
            (set_lastLongIndex 4
               (set_short_boxes [ mkBox 0 12 9 4 "a" ] _init_variables))))
    = bos_lines
        (set_lastLongIndex 4
           (set_short_boxes [ mkBox 0 12 9 4 "a" ] _init_variables))
  ∧ lastLongIndex
      (default _init_variables
         (short_pass two_zone_series 4
            (set_lastLongIndex 4
               (set_short_boxes [ mkBox 0 12 9 4 "a" ] _init_variables))))
    = lastLongIndex
        (set_lastLongIndex 4
           (set_short_boxes [ mkBox 0 12 9 4 "a" ] _init_variables)).
Proof.
  apply (short_pass_without_flip two_zone_series 4).
  - simpl. lia.
  - vm_compute. reflexivity.
Defined.

(** ** Time stamps *)

Lemma for_each_ext {S : Type} (body1 body2 : S → nat → option S) range s :
  (∀ t i, body1 t i = body2 t i) →
  for_each body1 range s = for_each body2 range s.
Proof.
  intros Hext. revert s. induction range as [|i range IH]; intros s; simpl;
    [done|].
  rewrite Hext. destruct (body2 s i); simpl; [apply IH|done].
Qed.

Section Stripped.

Variable data : list Candle.

Lemma stripped_length : length (strip_timestamp <$> data) = length data.
Proof. apply length_fmap. Qed.

Lemma stripped_lookup (i : nat) :
  (strip_timestamp <$> data) !! i = strip_timestamp <$> data !! i.
Proof. apply list_lookup_fmap. Qed.

Lemma stripped_low : Low <$> (strip_timestamp <$> data) = Low <$> data.
Proof. by rewrite <- list_fmap_compose. Qed.

Lemma stripped_high : High <$> (strip_timestamp <$> data) = High <$> data.
Proof. by rewrite <- list_fmap_compose. Qed.

Lemma stripped_pointer_step acc (i : nat) :
  pointer_step (strip_timestamp <$> data) acc i = pointer_step data acc i.
Proof.
  unfold pointer_step. rewrite stripped_lookup.
  by destruct (data !! i).
Qed.

Lemma stripped_calculate_structure_low (w : nat) :
  calculate_structure_low (strip_timestamp <$> data) w
  = calculate_structure_low data w.
Proof.
  unfold calculate_structure_low, structureLow_series,
    structureLowIndexPointer.
  rewrite stripped_low, stripped_high, stripped_length.
  by rewrite (for_each_ext _ (pointer_step data))
    by (intros; apply stripped_pointer_step).
Qed.

Variable structureLow : list (option Z).
Variable structureLowIndex : list Z.

Lemma stripped_bearish_break (i : nat) st :
  bearish_break (strip_timestamp <$> data) structureLow structureLowIndex
    i st
  = bearish_break data structureLow structureLowIndex i st.
Proof.
  unfold bearish_break, add_order_block.
  rewrite stripped_lookup, stripped_length. by destruct (data !! i).
Qed.

Lemma stripped_short_body (i : nat) box st :
  short_body (strip_timestamp <$> data) i box st
  = short_body data i box st.
Proof.
  unfold short_body, add_order_block.
  rewrite stripped_lookup, stripped_length. by destruct (data !! i).
Qed.

Lemma stripped_short_loop (i : nat) fuel : ∀ (idx : nat) st,
  short_loop (strip_timestamp <$> data) fuel i idx st
  = short_loop data fuel i idx st.
Proof.
  induction fuel as [|fuel IH]; intros idx st; simpl; [done|].
  destruct (short_boxes st !! idx); [|done].
  rewrite stripped_short_body.
  destruct (short_body data i b st); simpl; [apply IH|done].
Qed.

Lemma stripped_long_body (i : nat) box st :
  long_body (strip_timestamp <$> data) i box st = long_body data i box st.
Proof.
  unfold long_body. rewrite stripped_lookup. by destruct (data !! i).
Qed.

Lemma stripped_long_loop (i : nat) fuel : ∀ (idx : nat) st,
  long_loop (strip_timestamp <$> data) fuel i idx st
  = long_loop data fuel i idx st.
Proof.
  induction fuel as [|fuel IH]; intros idx st; simpl; [done|].
  destruct (long_boxes st !! idx); [|done].
  rewrite stripped_long_body.
  destruct (long_body data i b st); simpl; [apply IH|done].
Qed.

Lemma stripped_tracker_update (i : nat) st :
  tracker_update (strip_timestamp <$> data) i st
  = tracker_update data i st.
Proof.
  unfold tracker_update. rewrite stripped_lookup. by destruct (data !! i).
Qed.

Lemma stripped_process_bar st (i : nat) :
  process_bar (strip_timestamp <$> data) structureLow structureLowIndex
    st i
  = process_bar data structureLow structureLowIndex st i.
Proof.
  unfold process_bar, short_pass, long_pass.
  rewrite stripped_bearish_break.
  destruct (bearish_break data _ _ i st) as [st1|]; simpl; [|done].
  rewrite stripped_short_loop.
  destruct (if bool_decide _ then _ else _) as [st2|]; simpl; [|done].
  rewrite stripped_long_loop.
  destruct (if bool_decide _ then _ else _) as [st3|]; simpl; [|done].
  apply stripped_tracker_update.
Qed.

End Stripped.

Lemma stripped_engine (data : list Candle) (w : nat) :
  engine (strip_timestamp <$> data) w = engine data w.
Proof.
  unfold engine. rewrite stripped_calculate_structure_low.
  destruct (calculate_structure_low data w) as [[sl sli]|]; simpl; [|done].
  unfold process_order_blocks, scan. rewrite stripped_length.
  apply for_each_ext. intros t i. apply stripped_process_bar.
Qed.

(** X21.  The structure lows and the scan never read the time stamps: two
    series with the same prices bar for bar give the same result (the same
    zones, lines and tracker, or the same failure), whatever their time
    stamps are. *)
Theorem engine_ignores_timestamps (data data' : list Candle) (w : nat) :
  strip_timestamp <$> data = strip_timestamp <$> data' →
  engine data w = engine data' w.
Proof.
  intros Hsame.
  by rewrite <- (stripped_engine data), <- (stripped_engine data'), Hsame.
Qed.

Lemma engine_ignores_timestamps_witness :
  engine two_zone_series 1
  = engine
      [ mkCandle 9 10 12 9 11; mkCandle 7 10 10 8 9; mkCandle 7 8 11 8 10;
        mkCandle 3 9 9 7 8; mkCandle 1 8 14 8 13 ] 1.
Proof.
  apply (engine_ignores_timestamps two_zone_series
           [ mkCandle 9 10 12 9 11; mkCandle 7 10 10 8 9;
             mkCandle 7 8 11 8 10; mkCandle 3 9 9 7 8;
             mkCandle 1 8 14 8 13 ] 1).
  vm_compute. reflexivity.
Defined.
